(** * pocketbase-go: a shallow embedding of the client and its properties

    The development follows the Go package file by file:
    - [errors.go]: [APIError] and its classification helpers;
    - [types.go] : records, wire shapes, functional options;
    - [client.go]: token store, [doRequest], [doMultipartRequest],
                   authentication, impersonation, pagination;
    - [files.go] : the multipart entry points.

    Go's [int] is a 64-bit two's complement integer, kept as a [Z] with the
    wrap-around of [page++] written out.  Maps ([url.Values], [http.Header],
    [Record]) are stdpp [gmap]s.  The network, [encoding/json] and
    [http.NewRequest] belong to Go's library and to the remote service: they
    are the variables of section [Transport], so that every statement holds
    whatever they do. *)

From stdpp Require Import gmap strings list pretty.

Local Set Warnings "-register-all".
Local Open Scope Z_scope.

(** ** Go primitives *)
Module Go.

Definition int_min : Z := - 2 ^ 63.
Definition int_max : Z := 2 ^ 63 - 1.

(** Two's complement reduction of a mathematical integer to [int]. *)
Definition wrap (z : Z) : Z := (z + 2 ^ 63) `mod` 2 ^ 64 - 2 ^ 63.

(** [page++] *)
Definition incr (z : Z) : Z := wrap (z + 1).

Definition is_int (z : Z) : Prop := int_min ≤ z ≤ int_max.

(** [strconv.Itoa] *)
Definition Itoa (z : Z) : string := pretty z.

(** [strings.Join] *)
Fixpoint Join (elems : list string) (sep : string) : string :=
  match elems with
  | [] => ""
  | [e] => e
  | e :: rest => e +:+ sep +:+ Join rest sep
  end.

(** [len(m)] for a map. *)
Definition len_map {V} (m : gmap string V) : Z := Z.of_nat (size m).

(** [len(s)] for a slice. *)
Definition len {A} (l : list A) : Z := Z.of_nat (length l).

End Go.

(** Go's [strings] package, on byte strings. *)
Module Strings.

(** [len(s) >= len(suffix) && s[len(s)-len(suffix):] == suffix] *)
Definition HasSuffix (s suffix : string) : bool :=
  bool_decide (String.length suffix ≤ String.length s)%nat &&
  bool_decide (String.substring (String.length s - String.length suffix)
                 (String.length suffix) s = suffix).

(** [if HasSuffix(s, suffix) { return s[:len(s)-len(suffix)] }; return s] *)
Definition TrimSuffix (s suffix : string) : string :=
  if HasSuffix s suffix
  then String.substring 0 (String.length s - String.length suffix) s
  else s.

End Strings.

(** ** errors.go *)

(** A Go value of static type [any], as far as the client looks at it:
    the type switch of the multipart encoder tells strings, numbers and
    booleans from everything else. *)
Inductive any : Type :=
| ANil
| AString (s : string)
| AInt (z : Z)
| AFloat (bits : Z)
| ABool (b : bool)
| AList (l : list any)
| AMap (m : gmap string any).

(** [type Record map[string]any]; [None] is the nil map. *)
Definition Record : Type := option (gmap string any).

Record APIError : Type := mkAPIError {
  Status : Z;
  Message : string;
  Data : option (gmap string any)
}.

Definition IsNotFound (e : APIError) : bool := bool_decide (Status e = 404).
Definition IsUnauthorized (e : APIError) : bool := bool_decide (Status e = 401).
Definition IsForbidden (e : APIError) : bool := bool_decide (Status e = 403).
Definition IsBadRequest (e : APIError) : bool := bool_decide (Status e = 400).

(** [APIError.Error]: [fmt.Sprintf "pocketbase API error: %d %s"]. *)
Definition APIError_Error (e : APIError) : string :=
  "pocketbase API error: " +:+ Go.Itoa (Status e) +:+ " " +:+ Message e.

(** The values of Go's [error] interface that the client returns: an
    [*APIError], or an error made by [fmt.Errorf "<stage>: %w"] around a
    cause reported by the library; the text of the cause is the library's
    and is not kept. *)
Inductive error : Type :=
| ErrAPI (e : APIError)
| ErrWrap (stage : string).

(** ** types.go *)

(** An [io.Reader] as [io.Copy] sees it: the bytes it yields up to EOF, or
    a read error. *)
Inductive io_Reader : Type :=
| ReaderOf (data : string)
| ReaderFailing.

Record FileData : Type := mkFileData {
  Reader : io_Reader;
  Filename : string;
  Size : Z
}.

Record FileUpload : Type := mkFileUpload {
  Field : string;
  Files : list FileData;
  Append : bool;
  Delete : list string
}.

Record QueryOptions : Type := mkQueryOptions {
  Expand : list string;
  Fields : list string
}.

(** [Data] is read with [range], whose order the Go runtime picks: the
    form data is the sequence of entries in the order of that iteration;
    [None] is the nil map. *)
Record FileUploadOptions : Type := mkFileUploadOptions {
  Uploads : list FileUpload;
  FormData : option (list (string * any));
  FQuery : QueryOptions
}.

Definition FileUploadOption : Type := FileUploadOptions → FileUploadOptions.
Definition FileUploadModifier : Type := FileUpload → FileUpload.

Definition WithAppend : FileUploadModifier :=
  λ upload, {| Field := Field upload; Files := Files upload;
               Append := true; Delete := Delete upload |}.

Definition WithDelete (filenames : list string) : FileUploadModifier :=
  λ upload, {| Field := Field upload; Files := Files upload;
               Append := Append upload; Delete := filenames |}.

Definition WithFileUpload (field : string) (files : list FileData)
    (options : list FileUploadModifier) : FileUploadOption :=
  λ opts,
    let upload := {| Field := field; Files := files;
                     Append := false; Delete := [] |} in
    let upload := foldl (λ u option, option u) upload options in
    {| Uploads := Uploads opts ++ [upload];
       FormData := FormData opts; FQuery := FQuery opts |}.

Definition WithFormData (data : option (list (string * any))) : FileUploadOption :=
  λ opts, {| Uploads := Uploads opts; FormData := data; FQuery := FQuery opts |}.

Record authResp : Type := mkAuthResp {
  auth_Token : string;
  auth_Record : Record
}.

Record listResp : Type := mkListResp {
  Page : Z;
  PerPage : Z;
  TotalItems : Z;
  TotalPages : Z;
  Items : list Record
}.

Record apiErrorResp : Type := mkApiErrorResp {
  err_Status : Z;
  err_Message : string;
  err_Data : option (gmap string any)
}.

Record impersonateResp : Type := mkImpersonateResp {
  imp_Token : string;
  imp_Record : Record
}.

Record ImpersonateResult : Type := mkImpersonateResult {
  res_Token : string;
  res_Record : Record
}.

Definition QueryOption : Type := QueryOptions → QueryOptions.

Record ListOptions : Type := mkListOptions {
  opt_Page : Z;
  opt_PerPage : Z;
  opt_Sort : string;
  opt_Filter : string;
  opt_Expand : list string;
  opt_Fields : list string
}.

Definition ListOption : Type := ListOptions → ListOptions.

Definition WithExpand (fields : list string) : QueryOption :=
  λ opts, {| Expand := fields; Fields := Fields opts |}.

Definition WithFields (fields : list string) : QueryOption :=
  λ opts, {| Expand := Expand opts; Fields := fields |}.

Definition WithSort (sort : string) : ListOption :=
  λ o, mkListOptions (opt_Page o) (opt_PerPage o) sort (opt_Filter o)
         (opt_Expand o) (opt_Fields o).

Definition WithFilter (filter : string) : ListOption :=
  λ o, mkListOptions (opt_Page o) (opt_PerPage o) (opt_Sort o) filter
         (opt_Expand o) (opt_Fields o).

Definition WithListExpand (fields : list string) : ListOption :=
  λ o, mkListOptions (opt_Page o) (opt_PerPage o) (opt_Sort o) (opt_Filter o)
         fields (opt_Fields o).

Definition WithListFields (fields : list string) : ListOption :=
  λ o, mkListOptions (opt_Page o) (opt_PerPage o) (opt_Sort o) (opt_Filter o)
         (opt_Expand o) fields.

Definition WithPage (page : Z) : ListOption :=
  λ o, mkListOptions page (opt_PerPage o) (opt_Sort o) (opt_Filter o)
         (opt_Expand o) (opt_Fields o).

Definition WithPerPage (perPage : Z) : ListOption :=
  λ o, mkListOptions (opt_Page o) perPage (opt_Sort o) (opt_Filter o)
         (opt_Expand o) (opt_Fields o).

(** [for _, opt := range opts { opt(options) }] *)
Definition apply_opts {O} (opts : list (O → O)) (options : O) : O :=
  foldl (λ o opt, opt o) options opts.

(** ** client.go: requests as they reach the transport *)

(** [url.Values]; the client only ever calls [Set], which stores a one
    element slice under the key. *)
Abbreviation Values := (gmap string (list string)).

Definition Values_Set (k v : string) (params : Values) : Values :=
  <[k := [v]]> params.

(** [Values.Get]: the first value stored under the key, if any. *)
Definition Values_Get (k : string) (params : Values) : option string :=
  params !! k ≫= head.

(** An endpoint string [path + "?" + v1.Encode() + "?" + v2.Encode() ...]:
    the path and the [url.Values] that were appended to it, in order.
    [Encode] and the parser of the receiving side are net/url's; a
    request keeps the values handed to [Encode]. *)
Record Endpoint : Type := mkEndpoint {
  path : string;
  queries : list Values
}.

(** [endpoint += "?" + params.Encode()] *)
Definition add_query (e : Endpoint) (params : Values) : Endpoint :=
  {| path := path e; queries := queries e ++ [params] |}.

(** [base + endpoint] *)
Definition prefix_url (base : string) (e : Endpoint) : Endpoint :=
  {| path := base +:+ path e; queries := queries e |}.

(** What a [multipart.Writer] has been asked to write. *)
Inductive Part : Type :=
| FormField (fieldname value : string)
| FormFile (fieldname filename : string) (content : string).

Definition is_file_part (p : Part) : bool :=
  match p with FormFile _ _ _ => true | FormField _ _ => false end.

(** The body of a request: the bytes given to [bytes.NewReader] (none for
    a nil slice), or the parts of a closed multipart writer. *)
Inductive Payload : Type :=
| Bytes (b : string)
| Multipart (parts : list Part).

Abbreviation Header := (gmap string string).

Record Request : Type := mkRequest {
  Method : string;
  URL : Endpoint;
  Headers : Header;
  ReqBody : Payload
}.

(** The [page] and [perPage] query parameters as the service reads them. *)
Definition query_param (k : string) (r : Request) : option string :=
  head (queries (URL r)) ≫= Values_Get k.

(** The argument [body any] of [doRequest]. *)
Inductive body_arg : Type :=
| BodyNil
| BodyJSON (v : any)
| BodyFiles (fileUploads : FileUploadOptions).

Definition of_string_map (m : gmap string string) : any := AMap (AString <$> m).

Definition of_Record (r : Record) : any :=
  match r with Some m => AMap m | None => ANil end.

Inductive result (A : Type) : Type :=
| Ok (a : A)
| Err (e : error).
Arguments Ok {A} a.
Arguments Err {A} e.

(** [for _, x := range xs { ... }] over a state that a failing iteration
    abandons. *)
Fixpoint for_range {A W} (step : W → A → result W) (w : W) (xs : list A)
    : result W :=
  match xs with
  | [] => Ok w
  | x :: rest =>
      match step w x with
      | Ok w' => for_range step w' rest
      | Err e => Err e
      end
  end.

(** *** The multipart writer *)

Definition Writer : Type := list Part.

(** Writing to a [bytes.Buffer] does not fail; the error results of the
    writer are kept so that the callers read as in the source. *)
Definition WriteField (w : Writer) (fieldname value : string) : result Writer :=
  Ok (w ++ [FormField fieldname value]).

(** [CreateFormFile] opens a new, empty file part. *)
Definition CreateFormFile (w : Writer) (fieldname filename : string) : result Writer :=
  Ok (w ++ [FormFile fieldname filename ""]).

(** Bytes written to the part returned by the last [CreateFormFile]. *)
Definition part_Write (w : Writer) (data : string) : Writer :=
  match reverse w with
  | FormFile k n content :: before =>
      reverse before ++ [FormFile k n (content +:+ data)]
  | _ => w
  end.

(** [io.Copy(part, reader)] *)
Definition io_Copy (w : Writer) (reader : io_Reader) : result Writer :=
  match reader with
  | ReaderOf data => Ok (part_Write w data)
  | ReaderFailing => Err (ErrWrap "read")
  end.

(** [writer.Close()] ends the body with the closing boundary. *)
Definition Writer_Close (w : Writer) : result Writer := Ok w.

(** The body of [for _, file := range upload.Files]. *)
Definition write_file (fieldName : string) (w : Writer) (file : FileData)
    : result Writer :=
  match CreateFormFile w fieldName (Filename file) with
  | Err _ => Err (ErrWrap "failed to create form file")
  | Ok w =>
      match io_Copy w (Reader file) with
      | Err _ => Err (ErrWrap "failed to copy file data")
      | Ok w => Ok w
      end
  end.

(** The body of [for _, filename := range upload.Delete]. *)
Definition write_delete (deleteFieldName : string) (w : Writer) (filename : string)
    : result Writer :=
  match WriteField w deleteFieldName filename with
  | Err _ => Err (ErrWrap "failed to write delete field")
  | Ok w => Ok w
  end.

(** The body of [for _, upload := range fileUploads.Uploads]. *)
Definition write_upload (w : Writer) (upload : FileUpload) : result Writer :=
  let fieldName := Field upload in
  match
    (if bool_decide (Go.len (Delete upload) > 0) then
       let deleteFieldName := fieldName +:+ "-" in
       for_range (write_delete deleteFieldName) w (Delete upload)
     else Ok w)
  with
  | Err e => Err e
  | Ok w =>
      let fieldName := if Append upload then fieldName +:+ "+" else fieldName in
      for_range (write_file fieldName) w (Files upload)
  end.

Definition write_uploads (w : Writer) (uploads : list FileUpload) : result Writer :=
  for_range write_upload w uploads.

(** *** The client and its transport *)

(** [Client]: [HTTPClient] is the transport of section [Transport]; the
    mutex around [token] orders concurrent accesses, and the embedding is
    of one sequential caller. *)
Record Client : Type := mkClient {
  BaseURL : string;
  userAgent : string;
  token : string
}.

(** The outcome of [HTTPClient.Do]: a transport failure, or a response
    with [StatusCode], [Status] and the body. *)
Inductive DoResult (Body : Type) : Type :=
| DoErr
| DoResp (code : Z) (text : string) (body : Body).
Arguments DoErr {Body}.
Arguments DoResp {Body} code text body.

(** The zero value of a type, as left in [var resp T]. *)
Class Zero (T : Type) : Type := zero : T.
Global Instance zero_authResp : Zero authResp := mkAuthResp "" None.
Global Instance zero_listResp : Zero listResp := mkListResp 0 0 0 0 [].
Global Instance zero_apiErrorResp : Zero apiErrorResp := mkApiErrorResp 0 "" None.
Global Instance zero_impersonateResp : Zero impersonateResp := mkImpersonateResp "" None.
Global Instance zero_Record : Zero Record := None.

(** [json.NewDecoder(body).Decode(&out)] for a destination of type [T]:
    the decoded value, or [None] when [Decode] returns an error. *)
Class Unmarshal (Body T : Type) : Type := Decode : Body → option T.
Global Hint Mode Unmarshal ! ! : typeclass_instances.

(** One client, the remote service in some state, and the exchanges made
    so far, oldest first. *)
Record World (Body Srv : Type) : Type := mkWorld {
  client : Client;
  remote : Srv;
  wire : list (Request * DoResult Body)
}.
Arguments mkWorld {Body Srv} client remote wire.
Arguments client {Body Srv} w.
Arguments remote {Body Srv} w.
Arguments wire {Body Srv} w.

(** *** Construction *)

(** An [*http.Client] as [NewClient] and its options handle it: a client
    the package makes itself, where only [Timeout] is set ([&http.Client{}]
    has the zero timeout), or the one the caller hands over. *)
Inductive http_Client : Type :=
| OwnClient (Timeout : Z)
| CallerClient (handle : nat).

(** The client under construction: the fields the requests read, and the
    transport. *)
Record ClientConfig : Type := mkClientConfig {
  built : Client;
  HTTPClient : http_Client
}.

Definition Option : Type := ClientConfig → ClientConfig.

Definition WithHTTPClient (httpClient : http_Client) : Option :=
  λ c, {| built := built c; HTTPClient := httpClient |}.

Definition WithTimeout (timeout : Z) : Option :=
  λ c, {| built := built c; HTTPClient := OwnClient timeout |}.

Definition WithUserAgent (ua : string) : Option :=
  λ c, {| built := {| BaseURL := BaseURL (built c); userAgent := ua;
                      token := token (built c) |};
          HTTPClient := HTTPClient c |}.

Definition NewClient (baseURL : string) (opts : list Option) : ClientConfig :=
  let client :=
    {| built := {| BaseURL := Strings.TrimSuffix baseURL "/";
                   userAgent := "pocketbase-go/1.0"; token := "" |};
       HTTPClient := OwnClient 0 |} in
  apply_opts opts client.

(** The options the package provides. *)
Inductive provided : Option → Prop :=
| provided_client h : provided (WithHTTPClient h)
| provided_timeout t : provided (WithTimeout t)
| provided_agent ua : provided (WithUserAgent ua).

(** *** The upload options as a caller writes them *)

(** The modifiers and the upload options that the package provides, by
    name; [modifier_of] and [option_of] give the closures they stand for. *)
Inductive modifier_call : Type :=
| CallAppend
| CallDelete (filenames : list string).

#[global] Instance modifier_call_eq_dec : EqDecision modifier_call.
Proof. solve_decision. Defined.

Definition modifier_of (m : modifier_call) : FileUploadModifier :=
  match m with
  | CallAppend => WithAppend
  | CallDelete filenames => WithDelete filenames
  end.

Inductive upload_call : Type :=
| CallFileUpload (field : string) (files : list FileData)
    (options : list modifier_call)
| CallFormData (data : option (list (string * any))).

Definition option_of (c : upload_call) : FileUploadOption :=
  match c with
  | CallFileUpload field files options =>
      WithFileUpload field files (modifier_of <$> options)
  | CallFormData data => WithFormData data
  end.

(** The names a [WithDelete] gives, the form a [WithFormData] gives, and
    the directive a [WithFileUpload] stands for. *)
Definition deleted_by (m : modifier_call) : option (list string) :=
  match m with
  | CallAppend => None
  | CallDelete filenames => Some filenames
  end.

Definition form_by (c : upload_call) : option (option (list (string * any))) :=
  match c with
  | CallFileUpload _ _ _ => None
  | CallFormData data => Some data
  end.

Definition upload_by (c : upload_call) : option FileUpload :=
  match c with
  | CallFileUpload field files options =>
      Some (foldl (λ u option, option u)
              {| Field := field; Files := files; Append := false; Delete := [] |}
              (modifier_of <$> options))
  | CallFormData _ => None
  end.

(** The bundle before the caller's options are applied. *)
Definition no_uploads : FileUploadOptions :=
  {| Uploads := []; FormData := None;
     FQuery := {| Expand := []; Fields := [] |} |}.

(** *** files.go: file data *)

Definition CreateFileData (reader : io_Reader) (filename : string) : FileData :=
  {| Reader := reader; Filename := filename; Size := 0 |}.

Definition CreateFileDataFromBytes (data : string) (filename : string) : FileData :=
  {| Reader := ReaderOf data; Filename := filename;
     Size := Z.of_nat (String.length data) |}.

(** The same file, directive and bundle with other values in [Size]. *)
Definition resize (size : FileData → Z) (file : FileData) : FileData :=
  {| Reader := Reader file; Filename := Filename file; Size := size file |}.

Definition resize_upload (size : FileData → Z) (upload : FileUpload) : FileUpload :=
  {| Field := Field upload; Files := resize size <$> Files upload;
     Append := Append upload; Delete := Delete upload |}.

Definition resize_uploads (size : FileData → Z) (fileUploads : FileUploadOptions)
    : FileUploadOptions :=
  {| Uploads := resize_upload size <$> Uploads fileUploads;
     FormData := FormData fileUploads; FQuery := FQuery fileUploads |}.

(** ** A test double

    The stand-in for the remote service and for Go's library that the
    examples run against, in the manner of the [httptest] servers of
    [client_test.go]. *)
Module Mock.

(** A response body: bytes that are not JSON, or the JSON value they
    spell, written with the constructors of [any] ([ANil] is null). *)
Inductive body : Type :=
| NotJSON
| JSON (v : any).

(** A member of a JSON object as encoding/json reads it into a struct
    field: a missing member, or null, leaves the field at its zero value
    without any error; a member of another JSON type is an error. *)
Definition int_member (m : gmap string any) (k : string) : option Z :=
  match m !! k with
  | None | Some ANil => Some 0
  | Some (AInt z) => Some z
  | Some _ => None
  end.

Definition string_member (m : gmap string any) (k : string) : option string :=
  match m !! k with
  | None | Some ANil => Some ""
  | Some (AString s) => Some s
  | Some _ => None
  end.

Definition as_Record (v : any) : option Record :=
  match v with
  | ANil => Some None
  | AMap m => Some (Some m)
  | _ => None
  end.

Definition map_member (m : gmap string any) (k : string) : option Record :=
  match m !! k with
  | None => Some None
  | Some v => as_Record v
  end.

Definition records_member (m : gmap string any) (k : string)
    : option (list Record) :=
  match m !! k with
  | None | Some ANil => Some []
  | Some (AList l) => mapM as_Record l
  | Some _ => None
  end.

(** Decoding into a struct: null leaves the struct as it is, an object is
    read member by member, any other value and any non-JSON is an error. *)
Definition decode_struct {T} `{!Zero T} (read : gmap string any → option T)
    (b : body) : option T :=
  match b with
  | JSON ANil => Some zero
  | JSON (AMap m) => read m
  | _ => None
  end.

Global Instance decode_apiErrorResp : Unmarshal body apiErrorResp :=
  decode_struct (λ m,
    status ← int_member m "status";
    message ← string_member m "message";
    data ← map_member m "data";
    Some (mkApiErrorResp status message data)).

Global Instance decode_listResp : Unmarshal body listResp :=
  decode_struct (λ m,
    page ← int_member m "page";
    perPage ← int_member m "perPage";
    totalItems ← int_member m "totalItems";
    totalPages ← int_member m "totalPages";
    items ← records_member m "items";
    Some (mkListResp page perPage totalItems totalPages items)).

Global Instance decode_authResp : Unmarshal body authResp :=
  decode_struct (λ m,
    token ← string_member m "token";
    record ← map_member m "record";
    Some (mkAuthResp token record)).

Global Instance decode_impersonateResp : Unmarshal body impersonateResp :=
  decode_struct (λ m,
    token ← string_member m "token";
    record ← map_member m "record";
    Some (mkImpersonateResp token record)).

Global Instance decode_Record : Unmarshal body Record :=
  λ b, match b with JSON v => as_Record v | NotJSON => None end.

Definition quote : string := String (Ascii.ascii_of_nat 34) "".

(** An encoder for scalars and for objects of scalars, which is what the
    client itself puts in a JSON body. *)
Definition marshal_scalar (v : any) : option string :=
  match v with
  | ANil => Some "null"
  | AString s => Some (quote +:+ s +:+ quote)
  | AInt z => Some (Go.Itoa z)
  | ABool b => Some (if b then "true" else "false")
  | _ => None
  end.

Definition marshal (v : any) : option string :=
  match v with
  | AMap m =>
      members ← mapM (λ kv, s ← marshal_scalar kv.2;
                            Some (quote +:+ kv.1 +:+ quote +:+ ":" +:+ s))
                     (map_to_list m);
      Some ("{" +:+ Go.Join members "," +:+ "}")
  | _ => marshal_scalar v
  end.

Definition sprint (v : any) : string := default "" (marshal_scalar v).

Definition any_request (method : string) (url : Endpoint) : bool := true.

Definition record_json (id : string) : any := AMap {[ "id" := AString id ]}.

Definition record (id : string) : Record := Some {[ "id" := AString id ]}.

(** A collection of [N] pages, one record to a page, the record's id
    being the [page] parameter of the request; the state counts the
    requests served. *)
Definition paged (N : Z) (served : nat) (req : Request) : DoResult body * nat :=
  let page := default "" (query_param "page" req) in
  (DoResp 200 "200 OK"
     (JSON (AMap (<["perPage" := AInt 1]>
                 (<["totalItems" := AInt N]>
                 (<["totalPages" := AInt N]>
                 (<["items" := AList (if bool_decide (N ≤ 0) then []
                                      else [record_json page])]> ∅)))))),
   S served).

(** A service that knows one password. *)
Definition login (served : nat) (req : Request) : DoResult body * nat :=
  (if match ReqBody req with
      | Bytes b =>
          bool_decide (marshal (of_string_map
            (<["password" := "secret"]> (<["identity" := "ann"]> ∅))) = Some b)
      | Multipart _ => false
      end
   then DoResp 200 "200 OK"
          (JSON (AMap (<["token" := AString ("tok-" +:+ pretty served)]>
                      (<["record" := record_json "ann"]> ∅))))
   else DoResp 400 "400 Bad Request"
          (JSON (AMap (<["status" := AInt 400]>
                      (<["message" := AString "Failed to authenticate."]>
                      (<["data" := AMap ∅]> ∅))))),
   S served).

(** A service behind a failing proxy: an error page that is not JSON. *)
Definition broken (served : nat) (req : Request) : DoResult body * nat :=
  (DoResp 500 "500 Internal Server Error" NotJSON, S served).

(** A gateway that answers 502 with the empty JSON object. *)
Definition gateway (served : nat) (req : Request) : DoResult body * nat :=
  (DoResp 502 "502 Bad Gateway" (JSON (AMap ∅)), S served).

(** A service that hands out a token for whoever is asked for. *)
Definition impersonator (served : nat) (req : Request) : DoResult body * nat :=
  (DoResp 200 "200 OK"
     (JSON (AMap (<["token" := AString "imp"]>
                 (<["record" := record_json "bob"]> ∅)))),
   S served).

(** A service that stores whatever it is sent. *)
Definition store (served : nat) (req : Request) : DoResult body * nat :=
  (DoResp 200 "200 OK" (JSON (record_json "new")), S served).

(** A collection of three pages whose service breaks after the first. *)
Definition flaky (served : nat) (req : Request) : DoResult body * nat :=
  if bool_decide (query_param "page" req = Some "1")
  then paged 3 served req
  else broken served req.

(** A service that is not there: the transport reports an error. *)
Definition down (served : nat) (req : Request) : DoResult body * nat :=
  (DoErr, served).

Definition fresh : World body nat :=
  {| client := {| BaseURL := "http://localhost:8090";
                  userAgent := "pocketbase-go/1.0"; token := "" |};
     remote := O; wire := [] |}.

Definition with_token (t : string) : World body nat :=
  {| client := {| BaseURL := "http://localhost:8090";
                  userAgent := "pocketbase-go/1.0"; token := t |};
     remote := O; wire := [] |}.

End Mock.

Section Transport.

(** The bytes of a response body. *)
Context {Body : Type}.
Context `{!Unmarshal Body apiErrorResp, !Unmarshal Body authResp,
          !Unmarshal Body impersonateResp, !Unmarshal Body listResp,
          !Unmarshal Body Record}.

(** [json.Marshal], [fmt.Sprintf "%v"], whether [http.NewRequestWithContext]
    accepts a method and URL, and the boundary a new [multipart.Writer]
    draws. *)
Variable json_Marshal : any → option string.
Variable Sprintf_v : any → string.
Variable NewRequest_ok : string → Endpoint → bool.
Variable boundary : string.

(** The remote service: any state machine answering requests. *)
Context {Srv : Type}.
Variable serve : Srv → Request → DoResult Body * Srv.

Abbreviation World := (World Body Srv).

(** A method of [*Client] returning [(A, error)]. *)
Definition M (A : Type) : Type := World → result A * World.

Global Instance M_ret : MRet M := λ A a w, (Ok a, w).
Global Instance M_bind : MBind M := λ A B f m w,
  match m w with
  | (Ok a, w') => f a w'
  | (Err e, w') => (Err e, w')
  end.

Definition fail {A} (e : error) : M A := λ w, (Err e, w).

Definition lift {A} (r : result A) : M A := λ w, (r, w).

Definition this : M Client := λ w, (Ok (client w), w).

Definition SetToken (t : string) : M () := λ w,
  (Ok (),
   {| client := {| BaseURL := BaseURL (client w);
                   userAgent := userAgent (client w);
                   token := t |};
      remote := remote w; wire := wire w |}).

Definition GetToken : M string := λ w, (Ok (token (client w)), w).

(** [c.HTTPClient.Do(req)] *)
Definition HTTPClient_Do (req : Request) : M (DoResult Body) := λ w,
  let '(resp, s) := serve (remote w) req in
  (Ok resp,
   {| client := client w; remote := s; wire := wire w ++ [(req, resp)] |}).

(** The [params] of the single record operations: [expand] and [fields],
    each only when the slice is not empty. *)
Definition query_options_params (expand fields : list string) (params : Values)
    : Values :=
  let params :=
    if bool_decide (Go.len expand > 0)
    then Values_Set "expand" (Go.Join expand ",") params else params in
  let params :=
    if bool_decide (Go.len fields > 0)
    then Values_Set "fields" (Go.Join fields ",") params else params in
  params.

(** [if len(params) > 0 { endpoint += "?" + params.Encode() }] *)
Definition add_query_if_any (e : Endpoint) (params : Values) : Endpoint :=
  if bool_decide (Go.len_map params > 0) then add_query e params else e.

(** The form data loop of [doMultipartRequest]. *)
Definition write_data_field (w : Writer) (kv : string * any) : result Writer :=
  let '(key, value) := kv in
  match
    match value with
    | AString v => Ok v
    | AInt _ | AFloat _ | ABool _ => Ok (Sprintf_v value)
    | _ =>
        match json_Marshal value with
        | None => Err (ErrWrap ("failed to marshal form field " +:+ key))
        | Some jsonBytes => Ok jsonBytes
        end
    end
  with
  | Err e => Err e
  | Ok strValue =>
      match WriteField w key strValue with
      | Err _ => Err (ErrWrap ("failed to write form field " +:+ key))
      | Ok w => Ok w
      end
  end.

(** Everything [doMultipartRequest] writes before [writer.Close()]. *)
Definition write_form (fileUploads : FileUploadOptions) : result Writer :=
  let writer : Writer := [] in
  match
    match FormData fileUploads with
    | Some data => for_range write_data_field writer data
    | None => Ok writer
    end
  with
  | Err e => Err e
  | Ok writer => write_uploads writer (Uploads fileUploads)
  end.

Definition FormDataContentType : string :=
  "multipart/form-data; boundary=" +:+ boundary.

(** [out] tells whether the destination is not nil; the value returned on
    success is what was decoded into it, if anything was. *)
Definition doMultipartRequest {T} `{!Unmarshal Body T}
    (method : string) (endpoint : Endpoint)
    (fileUploads : FileUploadOptions) (out : bool) : M (option T) :=
  c ← this;
  let fullURL := prefix_url (BaseURL c) endpoint in
  let params := query_options_params (Expand (FQuery fileUploads))
                  (Fields (FQuery fileUploads)) ∅ in
  let fullURL := add_query_if_any fullURL params in
  writer ← lift (write_form fileUploads);
  reqBody ← lift (match Writer_Close writer with
                  | Err _ => Err (ErrWrap "failed to close multipart writer")
                  | Ok closed => Ok closed
                  end);
  if negb (NewRequest_ok method fullURL)
  then fail (ErrWrap "failed to create multipart request")
  else
    let header : Header := <["Content-Type" := FormDataContentType]> ∅ in
    let header := <["Accept" := "application/json"]> header in
    let header := <["User-Agent" := userAgent c]> header in
    token ← GetToken;
    let header :=
      if bool_decide (token ≠ "")
      then <["Authorization" := token]> header else header in
    resp ← HTTPClient_Do {| Method := method; URL := fullURL;
                            Headers := header; ReqBody := Multipart reqBody |};
    match resp with
    | DoErr => fail (ErrWrap "failed to execute multipart request")
    | DoResp code text body =>
        if bool_decide (code < 200 ∨ 300 ≤ code) then
          match Decode (T := apiErrorResp) body with
          | None =>
              fail (ErrAPI {| Status := code; Message := text; Data := None |})
          | Some apiErr =>
              fail (ErrAPI {| Status := err_Status apiErr;
                              Message := err_Message apiErr;
                              Data := err_Data apiErr |})
          end
        else if out then
          match Decode body with
          | None => fail (ErrWrap "failed to decode response")
          | Some v => mret (Some v)
          end
        else mret None
    end.

(** [doRequest]: file uploads go to the multipart path; any other body is
    sent as JSON, and no body at all when it is nil. *)
Definition doRequest {T} `{!Unmarshal Body T}
    (method : string) (endpoint : Endpoint) (body : body_arg) (out : bool)
    : M (option T) :=
  match body with
  | BodyFiles fileUploads => doMultipartRequest method endpoint fileUploads out
  | _ =>
    c ← this;
    let url := prefix_url (BaseURL c) endpoint in
    reqBody ←
      match body with
      | BodyJSON v =>
          match json_Marshal v with
          | None => fail (ErrWrap "failed to marshal request body")
          | Some b => mret b
          end
      | _ => mret ""
      end;
    if negb (NewRequest_ok method url)
    then fail (ErrWrap "failed to create request")
    else
      let header : Header := <["Content-Type" := "application/json"]> ∅ in
      let header := <["Accept" := "application/json"]> header in
      let header := <["User-Agent" := userAgent c]> header in
      token ← GetToken;
      let header :=
        if bool_decide (token ≠ "")
        then <["Authorization" := token]> header else header in
      resp ← HTTPClient_Do {| Method := method; URL := url;
                              Headers := header; ReqBody := Bytes reqBody |};
      match resp with
      | DoErr => fail (ErrWrap "failed to execute request")
      | DoResp code text body =>
          if bool_decide (code < 200 ∨ 300 ≤ code) then
            match Decode (T := apiErrorResp) body with
            | None =>
                fail (ErrAPI {| Status := code; Message := text; Data := None |})
            | Some apiErr =>
                fail (ErrAPI {| Status := err_Status apiErr;
                                Message := err_Message apiErr;
                                Data := err_Data apiErr |})
            end
          else if out then
            match Decode body with
            | None => fail (ErrWrap "failed to decode response")
            | Some v => mret (Some v)
            end
          else mret None
      end
  end.

(** *** Authentication *)

Definition AuthenticateWithPassword (collection identity password : string)
    : M Record :=
  let endpoint :=
    {| path := "/api/collections/" +:+ collection +:+ "/auth-with-password";
       queries := [] |} in
  let body : gmap string string :=
    <["password" := password]> (<["identity" := identity]> ∅) in
  resp ← doRequest "POST" endpoint (BodyJSON (of_string_map body)) true;
  let resp : authResp := default zero resp in
  _ ← SetToken (auth_Token resp);
  mret (auth_Record resp).

Definition AuthenticateAsSuperuser (email password : string) : M Record :=
  AuthenticateWithPassword "_superusers" email password.

(** The value [bodyToSend] that [Impersonate] hands to [doRequest]. *)
Definition Impersonate_body (duration : Z) : body_arg :=
  let body : gmap string any := ∅ in
  let body :=
    if bool_decide (duration > 0)
    then <["duration" := AInt duration]> body else body in
  if bool_decide (Go.len_map body > 0) then BodyJSON (AMap body) else BodyNil.

Definition Impersonate (collection recordID : string) (duration : Z)
    (opts : list QueryOption) : M ImpersonateResult :=
  let options := apply_opts opts {| Expand := []; Fields := [] |} in
  let endpoint :=
    {| path := "/api/collections/" +:+ collection +:+ "/impersonate/"
                 +:+ recordID;
       queries := [] |} in
  let params := query_options_params (Expand options) (Fields options) ∅ in
  let endpoint := add_query_if_any endpoint params in
  let bodyToSend := Impersonate_body duration in
  resp ← doRequest "POST" endpoint bodyToSend true;
  let resp : impersonateResp := default zero resp in
  mret {| res_Token := imp_Token resp; res_Record := imp_Record resp |}.

(** *** Records *)

Definition GetRecord (collection recordID : string) (opts : list QueryOption)
    : M Record :=
  let options := apply_opts opts {| Expand := []; Fields := [] |} in
  let endpoint :=
    {| path := "/api/collections/" +:+ collection +:+ "/records/" +:+ recordID;
       queries := [] |} in
  let params := query_options_params (Expand options) (Fields options) ∅ in
  let endpoint := add_query_if_any endpoint params in
  record ← doRequest "GET" endpoint BodyNil true;
  mret (default (zero : Record) record).

Definition CreateRecord (collection : string) (record : Record)
    (opts : list QueryOption) : M Record :=
  let options := apply_opts opts {| Expand := []; Fields := [] |} in
  let endpoint :=
    {| path := "/api/collections/" +:+ collection +:+ "/records";
       queries := [] |} in
  let params := query_options_params (Expand options) (Fields options) ∅ in
  let endpoint := add_query_if_any endpoint params in
  createdRecord ← doRequest "POST" endpoint (BodyJSON (of_Record record)) true;
  mret (default (zero : Record) createdRecord).

Definition UpdateRecord (collection recordID : string) (record : Record)
    (opts : list QueryOption) : M Record :=
  let options := apply_opts opts {| Expand := []; Fields := [] |} in
  let endpoint :=
    {| path := "/api/collections/" +:+ collection +:+ "/records/" +:+ recordID;
       queries := [] |} in
  let params := query_options_params (Expand options) (Fields options) ∅ in
  let endpoint := add_query_if_any endpoint params in
  updatedRecord ← doRequest "PATCH" endpoint (BodyJSON (of_Record record)) true;
  mret (default (zero : Record) updatedRecord).

(** The query of one list request. *)
Definition list_params (options : ListOptions) (page : Z) : Values :=
  let params : Values := ∅ in
  let params := Values_Set "page" (Go.Itoa page) params in
  let params :=
    if bool_decide (opt_PerPage options > 0)
    then Values_Set "perPage" (Go.Itoa (opt_PerPage options)) params
    else params in
  let params :=
    if bool_decide (opt_Sort options ≠ "")
    then Values_Set "sort" (opt_Sort options) params else params in
  let params :=
    if bool_decide (opt_Filter options ≠ "")
    then Values_Set "filter" (opt_Filter options) params else params in
  let params :=
    if bool_decide (Go.len (opt_Expand options) > 0)
    then Values_Set "expand" (Go.Join (opt_Expand options) ",") params
    else params in
  let params :=
    if bool_decide (Go.len (opt_Fields options) > 0)
    then Values_Set "fields" (Go.Join (opt_Fields options) ",") params
    else params in
  params.

Definition getRecordPage (collection : string) (options : ListOptions)
    (page : Z) : M listResp :=
  let endpoint :=
    {| path := "/api/collections/" +:+ collection +:+ "/records";
       queries := [] |} in
  let params := list_params options page in
  let endpoint := add_query endpoint params in
  resp ← doRequest "GET" endpoint BodyNil true;
  mret (default (zero : listResp) resp).

(** [options.Page = page] *)
Definition set_Page (options : ListOptions) (page : Z) : ListOptions :=
  WithPage page options.

(** The loop [for { ... }] of [GetAllRecords].  Nothing in the code bounds
    the number of rounds, so the embedding counts them down from [fuel]:
    [None] is a loop that is still running when the count is used up. *)
Fixpoint fetch_pages (fuel : nat) (collection : string) (options : ListOptions)
    (page : Z) (allRecords : list Record) (w : World)
    : option (result (list Record)) * World :=
  match fuel with
  | O => (None, w)
  | S fuel =>
      let options := set_Page options page in
      match getRecordPage collection options page w with
      | (Err err, w) => (Some (Err err), w)
      | (Ok resp, w) =>
          let allRecords := allRecords ++ Items resp in
          if bool_decide (page >= TotalPages resp)
          then (Some (Ok allRecords), w)
          else fetch_pages fuel collection options (Go.incr page) allRecords w
      end
  end.

Definition GetAllRecords (fuel : nat) (collection : string)
    (opts : list ListOption) (w : World)
    : option (result (list Record)) * World :=
  let options :=
    apply_opts opts {| opt_Page := 1; opt_PerPage := 30; opt_Sort := "";
                       opt_Filter := ""; opt_Expand := []; opt_Fields := [] |} in
  if bool_decide (opt_Page options > 1) then
    let page := opt_Page options in
    match getRecordPage collection options page w with
    | (Err err, w) => (Some (Err err), w)
    | (Ok records, w) => (Some (Ok (Items records)), w)
    end
  else fetch_pages fuel collection options 1 [] w.

(** *** files.go *)

Definition CreateRecordWithFiles (collection : string)
    (fileUploads : list FileUploadOption) : M Record :=
  let options :=
    apply_opts fileUploads
      {| Uploads := []; FormData := None;
         FQuery := {| Expand := []; Fields := [] |} |} in
  let endpoint :=
    {| path := "/api/collections/" +:+ collection +:+ "/records";
       queries := [] |} in
  createdRecord ← doRequest "POST" endpoint (BodyFiles options) true;
  mret (default (zero : Record) createdRecord).

Definition UpdateRecordWithFiles (collection recordID : string)
    (fileUploads : list FileUploadOption) : M Record :=
  let options :=
    apply_opts fileUploads
      {| Uploads := []; FormData := None;
         FQuery := {| Expand := []; Fields := [] |} |} in
  let endpoint :=
    {| path := "/api/collections/" +:+ collection +:+ "/records/" +:+ recordID;
       queries := [] |} in
  updatedRecord ← doRequest "PATCH" endpoint (BodyFiles options) true;
  mret (default (zero : Record) updatedRecord).

(** ** Vocabulary of the statements *)

(** The [*APIError] made from a response that is not 2xx. *)
Definition api_error_of (code : Z) (text : string) (body : Body) : APIError :=
  match Decode (T := apiErrorResp) body with
  | None => {| Status := code; Message := text; Data := None |}
  | Some apiErr => {| Status := err_Status apiErr; Message := err_Message apiErr;
                      Data := err_Data apiErr |}
  end.

(** What a caller gets for a given outcome of the transport. *)
Definition answer {T} `{!Unmarshal Body T} (execute_stage : string) (out : bool)
    (resp : DoResult Body) : result (option T) :=
  match resp with
  | DoErr => Err (ErrWrap execute_stage)
  | DoResp code text body =>
      if bool_decide (code < 200 ∨ 300 ≤ code)
      then Err (ErrAPI (api_error_of code text body))
      else if out then
        match Decode body with
        | None => Err (ErrWrap "failed to decode response")
        | Some v => Ok (Some v)
        end
      else Ok None
  end.

Definition json_headers (c : Client) (content_type : string) : Header :=
  let header : Header := <["Content-Type" := content_type]> ∅ in
  let header := <["Accept" := "application/json"]> header in
  let header := <["User-Agent" := userAgent c]> header in
  if bool_decide (token c ≠ "")
  then <["Authorization" := token c]> header else header.

(** The request of the JSON path. *)
Definition json_request (c : Client) (method : string) (endpoint : Endpoint)
    (reqBody : string) : Request :=
  {| Method := method; URL := prefix_url (BaseURL c) endpoint;
     Headers := json_headers c "application/json"; ReqBody := Bytes reqBody |}.

(** The request of the multipart path. *)
Definition multipart_request (c : Client) (method : string) (endpoint : Endpoint)
    (fileUploads : FileUploadOptions) (parts : list Part) : Request :=
  {| Method := method;
     URL := add_query_if_any (prefix_url (BaseURL c) endpoint)
              (query_options_params (Expand (FQuery fileUploads))
                 (Fields (FQuery fileUploads)) ∅);
     Headers := json_headers c FormDataContentType;
     ReqBody := Multipart parts |}.

(** Whether the value handed to [json.Marshal] is an object with key [k]. *)
Definition body_has_key (k : string) (body : body_arg) : bool :=
  match body with
  | BodyJSON (AMap m) => bool_decide (is_Some (m !! k))
  | _ => false
  end.

(** The bytes of the JSON path for an argument [body]. *)
Definition marshal_body (body : body_arg) : option string :=
  match body with
  | BodyJSON v => json_Marshal v
  | _ => Some ""
  end.

(** The request that [doRequest] builds for an argument [body], when it
    gets as far as building one. *)
Definition request_of (c : Client) (method : string) (endpoint : Endpoint)
    (body : body_arg) (req : Request) : Prop :=
  match body with
  | BodyFiles f =>
      ∃ parts, write_form f = Ok parts ∧
               req = multipart_request c method endpoint f parts
  | _ =>
      ∃ b, marshal_body body = Some b ∧ req = json_request c method endpoint b
  end.

(** What the query of a single record operation holds under a key. *)
Definition joined (names : list string) : option string :=
  if bool_decide (names = []) then None else Some (Go.Join names ",").

(** The shape of the one request of a single record operation: method,
    path under the base URL, [expand] and [fields] and no query at all
    without them, and the bytes of the body. *)
Definition record_request (c : Client) (method p : string)
    (options : QueryOptions) (body : body_arg) (req : Request) : Prop :=
  Method req = method ∧
  path (URL req) = BaseURL c +:+ p ∧
  query_param "expand" req = joined (Expand options) ∧
  query_param "fields" req = joined (Fields options) ∧
  (queries (URL req) = [] ↔ Expand options = [] ∧ Fields options = []) ∧
  (length (queries (URL req)) ≤ 1)%nat ∧
  ∃ b, marshal_body body = Some b ∧ ReqBody req = Bytes b.

(** What a list request holds under [sort] or [filter]. *)
Definition unless_empty (value : string) : option string :=
  if bool_decide (value = "") then None else Some value.

(** The shape of the one request of an upload: method, path under the base
    URL, the bundle's [expand] and [fields] and no query without them, and
    the parts of the bundle as the body. *)
Definition upload_request (c : Client) (method p : string)
    (options : FileUploadOptions) (req : Request) : Prop :=
  Method req = method ∧
  path (URL req) = BaseURL c +:+ p ∧
  query_param "expand" req = joined (Expand (FQuery options)) ∧
  query_param "fields" req = joined (Fields (FQuery options)) ∧
  (queries (URL req) = [] ↔
     Expand (FQuery options) = [] ∧ Fields (FQuery options) = []) ∧
  ∃ parts, write_form options = Ok parts ∧ ReqBody req = Multipart parts.

(** One exchange appended to the wire. *)
Definition exchanged (w : World) (req : Request) (resp : DoResult Body)
    (s : Srv) : World :=
  {| client := client w; remote := s; wire := wire w ++ [(req, resp)] |}.

(** The request for one page of a collection. *)
Definition page_request (c : Client) (collection : string)
    (options : ListOptions) (page : Z) : Request :=
  json_request c "GET"
    (add_query {| path := "/api/collections/" +:+ collection +:+ "/records";
                  queries := [] |} (list_params options page)) "".

(** What [getRecordPage] returns for a given outcome of the transport. *)
Definition page_answer (resp : DoResult Body) : result listResp :=
  match answer (T := listResp) "failed to execute request" true resp with
  | Ok decoded => Ok (default zero decoded)
  | Err e => Err e
  end.

(** The items of the page that an exchange delivered. *)
Definition items_of (x : Request * DoResult Body) : list Record :=
  match x.2 with
  | DoResp code text body =>
      match Decode (T := listResp) body with
      | Some resp => Items resp
      | None => []
      end
  | DoErr => []
  end.

Definition page_of (x : Request * DoResult Body) : option string :=
  query_param "page" x.1.

(** Every exchange of [earlier], the first of which asked for [page],
    delivered its page and reported a total above the page asked for. *)
Definition more_pages (page : Z) (earlier : list (Request * DoResult Body))
    : Prop :=
  ∀ i x, earlier !! i = Some x →
    ∃ resp, page_answer x.2 = Ok resp ∧ page + Z.of_nat i < TotalPages resp.

(** The text of a string, number or boolean form value: a string as it
    is, the others as [%v] prints them. *)
Definition scalar_text (value : any) : option string :=
  match value with
  | AString v => Some v
  | AInt _ | AFloat _ | ABool _ => Some (Sprintf_v value)
  | _ => None
  end.

Definition failing (file : FileData) : Prop := Reader file = ReaderFailing.

(** The parts that one upload directive stands for. *)
Definition upload_parts (upload : FileUpload) : list Part :=
  (FormField (Field upload +:+ "-") <$> Delete upload) ++
  ((λ file, FormFile (if Append upload then Field upload +:+ "+" else Field upload)
              (Filename file)
              (match Reader file with ReaderOf data => data | ReaderFailing => "" end))
     <$> Files upload).

(** The directive that [WithFileUpload field files modifiers] appends. *)
Definition directive (d : string * list FileData * list FileUploadModifier)
    : FileUpload :=
  foldl (λ u option, option u)
    {| Field := d.1.1; Files := d.1.2; Append := false; Delete := [] |} d.2.

Definition readable (file : FileData) : Prop := Reader file ≠ ReaderFailing.

(** The options of [GetAllRecords] before the caller's are applied. *)
Definition default_list_options : ListOptions :=
  {| opt_Page := 1; opt_PerPage := 30; opt_Sort := ""; opt_Filter := "";
     opt_Expand := []; opt_Fields := [] |}.

(** ** The transport *)

Ltac run_M :=
  unfold mbind, M_bind, this, GetToken, HTTPClient_Do, fail, lift, mret, M_ret;
  cbn [fst snd].

Ltac send_request :=
  unfold json_request, json_headers, exchanged; cbn;
  case_bool_decide;
  (destruct (serve _ _) as [[|? ? ?] ?]; cbn; try done;
   unfold answer, api_error_of;
   repeat (case_bool_decide || case_match); simplify_eq; cbn).

Ltac nothing_sent :=
  exists []; rewrite app_nil_r; split_and!; [done|cbn; lia|by constructor].

Lemma doRequest_json {T} `{!Unmarshal Body T} method endpoint body out w :
  (∀ f, body ≠ BodyFiles f) →
  doRequest (T := T) method endpoint body out w =
    match marshal_body body with
    | None => (Err (ErrWrap "failed to marshal request body"), w)
    | Some b =>
        if NewRequest_ok method (prefix_url (BaseURL (client w)) endpoint) then
          let req := json_request (client w) method endpoint b in
          (answer "failed to execute request" out (serve (remote w) req).1,
           exchanged w req (serve (remote w) req).1 (serve (remote w) req).2)
        else (Err (ErrWrap "failed to create request"), w)
    end.
Proof.
  intros Hbody.
  destruct body as [|v|f]; [| |by destruct (Hbody f)];
    cbn [doRequest marshal_body]; run_M.
  - destruct (NewRequest_ok _ _); run_M; [|done].
    by send_request.
  - destruct (json_Marshal v) as [b|]; run_M; [|done].
    destruct (NewRequest_ok _ _); run_M; [|done].
    by send_request.
Qed.


Lemma doMultipartRequest_run {T} `{!Unmarshal Body T} method endpoint f out w :
  doMultipartRequest (T := T) method endpoint f out w =
    match write_form f with
    | Err e => (Err e, w)
    | Ok parts =>
        let req := multipart_request (client w) method endpoint f parts in
        if NewRequest_ok method (URL req) then
          (answer "failed to execute multipart request" out
             (serve (remote w) req).1,
           exchanged w req (serve (remote w) req).1 (serve (remote w) req).2)
        else (Err (ErrWrap "failed to create multipart request"), w)
    end.
Proof.
  unfold doMultipartRequest, multipart_request; run_M.
  destruct (write_form f) as [parts|e]; cbn [URL]; [|done].
  destruct (NewRequest_ok _ _); run_M; [|done].
  by send_request.
Qed.

(** Either nothing is sent and the world is as before, or one request is
    sent and the caller gets the [answer] to what came back. *)
Lemma doRequest_outcome {T} `{!Unmarshal Body T} method endpoint body out w :
  (∃ e, doRequest (T := T) method endpoint body out w = (Err e, w)) ∨
  (∃ req stage,
     Method req = method ∧
     doRequest (T := T) method endpoint body out w =
       (answer stage out (serve (remote w) req).1,
        exchanged w req (serve (remote w) req).1 (serve (remote w) req).2)).
Proof.
  assert (Hfiles : (∃ f, body = BodyFiles f) ∨ ∀ f, body ≠ BodyFiles f)
    by (destruct body; eauto).
  destruct Hfiles as [[f ->]|Hjson].
  - cbn [doRequest]. rewrite doMultipartRequest_run.
    destruct (write_form f) as [parts|e]; [|by eauto].
    cbn zeta. destruct (NewRequest_ok _ _); [|by eauto].
    right.
    by exists (multipart_request (client w) method endpoint f parts),
      "failed to execute multipart request".
  - rewrite doRequest_json by done.
    destruct (marshal_body body) as [b|]; [|by eauto].
    destruct (NewRequest_ok _ _); [|by eauto].
    right.
    by exists (json_request (client w) method endpoint b),
      "failed to execute request".
Qed.

Lemma wire_not_extended {A} (l : list A) x : l ≠ l ++ [x].
Proof.
  intros H. apply (f_equal length) in H. rewrite length_app in H. cbn in H. lia.
Qed.

(** C3.  Whatever the operation (every one of them goes through
    [doRequest], which hands file uploads to [doMultipartRequest]): when the
    response that came back is not 2xx, the caller gets an [*APIError],
    never a decode error.  If the body decodes as an error payload, the
    error carries the status, message and data of that payload; if the body
    does not decode, its status is the HTTP status code, its message the
    HTTP status text and its data is nil. *)
Theorem non_2xx_is_APIError {T} `{!Unmarshal Body T}
    method endpoint body out w req code text payload :
  wire (doRequest (T := T) method endpoint body out w).2
    = wire w ++ [(req, DoResp code text payload)] →
  code < 200 ∨ 300 ≤ code →
  ∃ e : APIError,
    (doRequest (T := T) method endpoint body out w).1 = Err (ErrAPI e) ∧
    match Decode (T := apiErrorResp) payload with
    | Some reported =>
        Status e = err_Status reported ∧ Message e = err_Message reported ∧
        Data e = err_Data reported
    | None => Status e = code ∧ Message e = text ∧ Data e = None
    end.
Proof.
  intros Hwire Hcode.
  destruct (doRequest_outcome (T := T) method endpoint body out w)
    as [[e Hrun]|(req' & stage & _ & Hrun)]; rewrite Hrun in Hwire |- *.
  - cbn in Hwire. by destruct (wire_not_extended _ _ Hwire).
  - cbn in Hwire. apply app_inv_head in Hwire.
    injection Hwire as -> Hresp. cbn [fst]. rewrite Hresp.
    unfold answer. rewrite bool_decide_eq_true_2 by done.
    eexists; split; [done|].
    unfold api_error_of. by destruct (Decode payload).
Qed.

(** ** The token *)

(** C7.  Whatever token the client held, [GetToken] after [SetToken t]
    returns [t]. *)
Theorem SetToken_GetToken (t : string) (w : World) :
  (SetToken t ≫= λ _, GetToken) w = (Ok t, (SetToken t w).2) ∧
  GetToken (SetToken t w).2 = (Ok t, (SetToken t w).2).
Proof. done. Qed.

(** C8.  Each helper answers [true] exactly at its own status: 404, 401,
    403 and 400; in particular [IsBadRequest] is false at 500. *)
Theorem status_helpers (e : APIError) :
  (IsNotFound e = true ↔ Status e = 404) ∧
  (IsUnauthorized e = true ↔ Status e = 401) ∧
  (IsForbidden e = true ↔ Status e = 403) ∧
  (IsBadRequest e = true ↔ Status e = 400) ∧
  (∀ m d, IsBadRequest (mkAPIError 500 m d) = false) ∧
  (∀ m d, IsNotFound (mkAPIError 200 m d) = false).
Proof.
  unfold IsNotFound, IsUnauthorized, IsForbidden, IsBadRequest.
  rewrite !bool_decide_eq_true. done.
Qed.

(** ** Authentication *)

Lemma SetToken_wire t w : wire (SetToken t w).2 = wire w.
Proof. done. Qed.

(** A 2xx response that decodes makes the call succeed. *)
Lemma AuthenticateWithPassword_success collection identity password w b :
  let endpoint :=
    {| path := "/api/collections/" +:+ collection +:+ "/auth-with-password";
       queries := [] |} in
  let req := json_request (client w) "POST" endpoint b in
  json_Marshal (of_string_map
    (<["password" := password]> (<["identity" := identity]> ∅))) = Some b →
  NewRequest_ok "POST" (prefix_url (BaseURL (client w)) endpoint) = true →
  ∀ code text payload resp,
    (serve (remote w) req).1 = DoResp code text payload →
    200 ≤ code < 300 →
    Decode (T := authResp) payload = Some resp →
    AuthenticateWithPassword collection identity password w =
      (Ok (auth_Record resp),
       {| client := {| BaseURL := BaseURL (client w);
                       userAgent := userAgent (client w);
                       token := auth_Token resp |};
          remote := (serve (remote w) req).2;
          wire := wire w ++ [(req, DoResp code text payload)] |}).
Proof.
  intros endpoint req Hb Hreq code text payload resp Hresp Hcode Hdec.
  unfold AuthenticateWithPassword. run_M.
  rewrite doRequest_json by done. cbn [marshal_body]. rewrite Hb.
  fold endpoint. rewrite Hreq. cbn zeta. fold req. rewrite Hresp.
  unfold answer.
  rewrite bool_decide_eq_false_2 by lia. by rewrite Hdec.
Qed.

(** C5.  When [AuthenticateWithPassword] succeeds, one response was
    received, it decoded as an auth response, the stored token is the token
    of that response and the returned record is its record.  When it fails
    the client, and so its token, is as before.  [AuthenticateAsSuperuser]
    is the same call on the collection [_superusers]. *)
Theorem AuthenticateWithPassword_token collection identity password w :
  let run := AuthenticateWithPassword collection identity password w in
  match run.1 with
  | Ok record =>
      ∃ req code text payload resp,
        wire run.2 = wire w ++ [(req, DoResp code text payload)] ∧
        Decode (T := authResp) payload = Some resp ∧
        token (client run.2) = auth_Token resp ∧
        record = auth_Record resp
  | Err _ => client run.2 = client w
  end ∧
  AuthenticateAsSuperuser identity password w
    = AuthenticateWithPassword "_superusers" identity password w.
Proof.
  split; [|done]. unfold AuthenticateWithPassword. run_M.
  match goal with |- context [doRequest ?m ?e ?b ?o w] =>
    destruct (doRequest_outcome (T := authResp) m e b o w)
      as [[e' ->]|(req & stage & _ & ->)] end; [done|].
  destruct (serve (remote w) req) as [[|code text payload] s]; cbn; [done|].
  case_bool_decide; cbn; [done|].
  destruct (Decode payload) as [resp|] eqn:Hdec; cbn; [|done].
  by exists req, code, text, payload, resp.
Qed.

(** C6.  [Impersonate] hands [doRequest] an object with the single key
    [duration] when the duration is positive and no body otherwise, and
    the run is fixed by it: once the body is encoded and the request is
    built, exactly one request goes out, a POST whose body is the
    encoding of [{duration: d}] for a positive duration and no bytes at
    all for zero or a negative one; the result is read off the response to
    that request.  Nothing is sent only when the body does not encode or
    the request cannot be built, and the call fails then. *)
Theorem Impersonate_duration collection recordID duration opts w :
  let options := apply_opts opts {| Expand := []; Fields := [] |} in
  let endpoint :=
    add_query_if_any
      {| path := "/api/collections/" +:+ collection +:+ "/impersonate/"
                   +:+ recordID;
         queries := [] |}
      (query_options_params (Expand options) (Fields options) ∅) in
  let encoded :=
    if bool_decide (duration > 0)
    then json_Marshal (AMap {[ "duration" := AInt duration ]})
    else Some "" in
  body_has_key "duration" (Impersonate_body duration) = bool_decide (duration > 0) ∧
  Impersonate_body duration =
    (if bool_decide (duration > 0)
     then BodyJSON (AMap {[ "duration" := AInt duration ]}) else BodyNil) ∧
  Impersonate_body 3600 = BodyJSON (AMap {[ "duration" := AInt 3600 ]}) ∧
  (∃ new,
    wire (Impersonate collection recordID duration opts w).2 = wire w ++ new ∧
    (length new ≤ 1)%nat ∧
    Forall (λ x, ∃ b, ReqBody x.1 = Bytes b ∧
              if bool_decide (duration > 0)
              then json_Marshal (AMap {[ "duration" := AInt duration ]}) = Some b
              else b = "") new) ∧
  Impersonate collection recordID duration opts w =
    match encoded with
    | None => (Err (ErrWrap "failed to marshal request body"), w)
    | Some b =>
        if NewRequest_ok "POST" (prefix_url (BaseURL (client w)) endpoint) then
          let req := json_request (client w) "POST" endpoint b in
          let resp := (serve (remote w) req).1 in
          (match answer (T := impersonateResp) "failed to execute request"
                   true resp with
           | Ok r => Ok {| res_Token := imp_Token (default zero r);
                           res_Record := imp_Record (default zero r) |}
           | Err e => Err e
           end,
           exchanged w req resp (serve (remote w) req).2)
        else (Err (ErrWrap "failed to create request"), w)
    end ∧
  (∀ b, encoded = Some b →
     NewRequest_ok "POST" (prefix_url (BaseURL (client w)) endpoint) = true →
     ∃ req resp,
       wire (Impersonate collection recordID duration opts w).2
         = wire w ++ [(req, resp)] ∧
       Method req = "POST" ∧ ReqBody req = Bytes b).
Proof.
  intros options endpoint encoded.
  assert (Hbody : Impersonate_body duration =
    (if bool_decide (duration > 0)
     then BodyJSON (AMap {[ "duration" := AInt duration ]}) else BodyNil)).
  { unfold Impersonate_body, Go.len_map.
    destruct (decide (duration > 0)) as [Hd|Hd].
    - rewrite !(bool_decide_eq_true_2 (duration > 0)) by done.
      rewrite insert_empty, map_size_singleton.
      by rewrite bool_decide_eq_true_2.
    - rewrite !(bool_decide_eq_false_2 (duration > 0)) by done.
      rewrite map_size_empty. by rewrite bool_decide_eq_false_2. }
  assert (Hencoded : marshal_body (Impersonate_body duration) = encoded).
  { rewrite Hbody. unfold encoded. by destruct (bool_decide (duration > 0)). }
  assert (Hrun : Impersonate collection recordID duration opts w =
    match encoded with
    | None => (Err (ErrWrap "failed to marshal request body"), w)
    | Some b =>
        if NewRequest_ok "POST" (prefix_url (BaseURL (client w)) endpoint) then
          let req := json_request (client w) "POST" endpoint b in
          let resp := (serve (remote w) req).1 in
          (match answer (T := impersonateResp) "failed to execute request"
                   true resp with
           | Ok r => Ok {| res_Token := imp_Token (default zero r);
                           res_Record := imp_Record (default zero r) |}
           | Err e => Err e
           end,
           exchanged w req resp (serve (remote w) req).2)
        else (Err (ErrWrap "failed to create request"), w)
    end).
  { unfold Impersonate. run_M. fold options. fold endpoint.
    rewrite doRequest_json
      by (intros f; rewrite Hbody; case_bool_decide; discriminate).
    rewrite Hencoded. destruct encoded as [b|]; [|done].
    destruct (NewRequest_ok _ _); [|done].
    cbn zeta. cbn [fst snd]. by destruct (answer _ _ _). }
  split_and!; [|done|done| |exact Hrun|].
  - rewrite Hbody. case_bool_decide; cbn; [|done].
    rewrite bool_decide_eq_true_2; [done|]. by rewrite lookup_singleton_eq.
  - rewrite Hrun. unfold encoded.
    destruct (decide (duration > 0)) as [Hd|Hd].
    + rewrite !(bool_decide_eq_true_2 (duration > 0)) by done.
      destruct (json_Marshal _) as [b|] eqn:Hb; [|nothing_sent].
      destruct (NewRequest_ok _ _); [|nothing_sent].
      eexists [_]. split_and!; [done|cbn; lia|].
      constructor; [|done]. by exists b.
    + rewrite !(bool_decide_eq_false_2 (duration > 0)) by done.
      destruct (NewRequest_ok _ _); [|nothing_sent].
      eexists [_]. split_and!; [done|cbn; lia|].
      constructor; [|done]. by exists "".
  - intros b Hb Hok. rewrite Hrun, Hb, Hok.
    by eexists _, _.
Qed.

(** ** The multipart encoder *)

Lemma write_deletes key names w :
  for_range (write_delete key) w names = Ok (w ++ (FormField key <$> names)).
Proof.
  revert w. induction names as [|name names IH]; intros w; cbn.
  - by rewrite app_nil_r.
  - rewrite IH. by rewrite <- app_assoc.
Qed.

Lemma part_Write_fresh w key name data :
  part_Write (w ++ [FormFile key name ""]) data = w ++ [FormFile key name data].
Proof. unfold part_Write. by rewrite reverse_snoc, reverse_involutive. Qed.

Lemma write_file_readable key w file :
  readable file →
  write_file key w file =
    Ok (w ++ [FormFile key (Filename file)
                (match Reader file with ReaderOf d => d | ReaderFailing => "" end)]).
Proof.
  unfold readable, write_file, CreateFormFile, io_Copy.
  destruct (Reader file) as [data|]; [|done]. intros _.
  by rewrite part_Write_fresh.
Qed.

Lemma write_files key files w :
  Forall readable files →
  for_range (write_file key) w files =
    Ok (w ++ ((λ file, FormFile key (Filename file)
                 (match Reader file with ReaderOf d => d | ReaderFailing => "" end))
              <$> files)).
Proof.
  intros Hfiles. revert w.
  induction Hfiles as [|file files Hfile _ IH]; intros w; cbn [for_range fmap list_fmap mbind list_bind].
  - by rewrite app_nil_r.
  - rewrite write_file_readable by done. rewrite IH. by rewrite <- app_assoc.
Qed.

Lemma write_upload_parts w upload :
  Forall readable (Files upload) →
  write_upload w upload = Ok (w ++ upload_parts upload).
Proof.
  intros Hfiles. unfold write_upload, upload_parts.
  assert (Hdel : (if bool_decide (Go.len (Delete upload) > 0)
                  then for_range (write_delete (Field upload +:+ "-")) w
                         (Delete upload)
                  else Ok w)
                 = Ok (w ++ (FormField (Field upload +:+ "-") <$> Delete upload))).
  { case_bool_decide as Hlen; [apply write_deletes|].
    destruct (Delete upload); [by rewrite app_nil_r|].
    unfold Go.len in Hlen. cbn in Hlen. lia. }
  rewrite Hdel, write_files by done. by rewrite <- app_assoc.
Qed.

Lemma write_uploads_parts w uploads :
  Forall (λ upload, Forall readable (Files upload)) uploads →
  write_uploads w uploads = Ok (w ++ (uploads ≫= upload_parts)).
Proof.
  unfold write_uploads. intros Huploads. revert w.
  induction Huploads as [|upload uploads Hupload _ IH]; intros w; cbn [for_range fmap list_fmap mbind list_bind].
  - by rewrite app_nil_r.
  - rewrite write_upload_parts by done. rewrite IH. by rewrite <- app_assoc.
Qed.

Lemma write_data_fields data w w' :
  for_range write_data_field w data = Ok w' →
  ∃ fields, w' = w ++ fields ∧ length fields = length data ∧
            Forall (λ p, is_file_part p = false) fields.
Proof.
  revert w. induction data as [|[key value] data IH]; intros w; cbn.
  - intros [= <-]. exists []. by rewrite app_nil_r.
  - destruct (match value with AString _ => _ | _ => _ end) as [strValue|];
      [|done].
    cbn. intros Hrest. destruct (IH _ Hrest) as (fields & -> & Hlen & Hfields).
    exists (FormField key strValue :: fields).
    rewrite <- app_assoc. split_and!; [done|cbn; lia|by constructor].
Qed.

(** The bundle lists the directives in the order of the calls. *)
Lemma uploads_in_call_order directives options :
  Uploads (apply_opts ((λ d, WithFileUpload d.1.1 d.1.2 d.2) <$> directives)
             options)
    = Uploads options ++ (directive <$> directives).
Proof.
  revert options.
  induction directives as [|d directives IH]; intros options; cbn.
  - by rewrite app_nil_r.
  - unfold apply_opts in IH. rewrite IH. cbn. by rewrite <- app_assoc.
Qed.

(** C4.  With every file readable, the encoder writes the directives in
    the order given, and for each directive first one field [<field>-] per
    name of its delete list, then one file part per file under [<field>+]
    when appending and under [<field>] otherwise.  The request that
    carries a bundle has exactly these parts after the form data fields.  A
    directive for [avatar] that only deletes [a.png] and [b.png] gives the
    two fields [avatar-] and no file part; appending [c.pdf] to [files]
    gives one file part [files+]. *)
Theorem uploads_encoding {T} `{!Unmarshal Body T}
    (uploads : list FileUpload) (writer : Writer) :
  Forall (λ upload, Forall readable (Files upload)) uploads →
  write_uploads writer uploads = Ok (writer ++ (uploads ≫= upload_parts)) ∧
  (∀ method endpoint data query out w,
     ∃ new,
       wire (doRequest (T := T) method endpoint
               (BodyFiles {| Uploads := uploads; FormData := data;
                             FQuery := query |}) out w).2 = wire w ++ new ∧
       (length new ≤ 1)%nat ∧
       Forall (λ x, ∃ fields,
                 ReqBody x.1 = Multipart (fields ++ (uploads ≫= upload_parts)) ∧
                 Forall (λ p, is_file_part p = false) fields) new) ∧
  write_uploads [] [ {| Field := "avatar"; Files := []; Append := false;
                        Delete := ["a.png"; "b.png"] |} ]
    = Ok [FormField "avatar-" "a.png"; FormField "avatar-" "b.png"] ∧
  (∀ reader size data, reader = ReaderOf data →
     write_uploads [] [ {| Field := "files";
                           Files := [ {| Reader := reader; Filename := "c.pdf";
                                         Size := size |} ];
                           Append := true; Delete := [] |} ]
       = Ok [FormFile "files+" "c.pdf" data]).
Proof.
  intros Hreadable. split_and!.
  - by apply write_uploads_parts.
  - intros method endpoint data query out w. cbn [doRequest].
    rewrite doMultipartRequest_run. unfold write_form. cbn [FormData Uploads].
    destruct (match data with Some d => _ | None => _ end)
      as [fields|e] eqn:Hdata; [|nothing_sent].
    rewrite write_uploads_parts by done. cbn zeta.
    destruct (NewRequest_ok _ _); [|nothing_sent].
    eexists [_]. split_and!; [done|cbn; lia|].
    constructor; [|done]. exists fields. split; [done|].
    destruct data as [d|]; [|by injection Hdata as <-].
    apply write_data_fields in Hdata as (fields' & -> & _ & Hfields).
    done.
  - done.
  - by intros reader size data ->.
Qed.

(** ** Pagination *)

Lemma wrap_is_int z : Go.is_int z → Go.wrap z = z.
Proof.
  unfold Go.is_int, Go.int_min, Go.int_max, Go.wrap. intros Hz.
  rewrite Z.mod_small; lia.
Qed.

Lemma page_request_page c collection options page :
  query_param "page" (page_request c collection options page)
    = Some (Go.Itoa page).
Proof.
  unfold query_param, page_request, list_params, Values_Get, Values_Set.
  cbn [json_request URL prefix_url add_query queries app head mbind option_bind].
  repeat case_bool_decide; by simplify_map_eq.
Qed.

Lemma page_request_perPage c collection options page :
  query_param "perPage" (page_request c collection options page)
    = if bool_decide (opt_PerPage options > 0)
      then Some (Go.Itoa (opt_PerPage options)) else None.
Proof.
  unfold query_param, page_request, list_params, Values_Get, Values_Set.
  cbn [json_request URL prefix_url add_query queries app head mbind option_bind].
  repeat case_bool_decide; by simplify_map_eq.
Qed.

Lemma getRecordPage_run collection options page w :
  getRecordPage collection options page w =
    let req := page_request (client w) collection options page in
    if NewRequest_ok "GET" (URL req) then
      (page_answer (serve (remote w) req).1,
       exchanged w req (serve (remote w) req).1 (serve (remote w) req).2)
    else (Err (ErrWrap "failed to create request"), w).
Proof.
  unfold getRecordPage. run_M. rewrite doRequest_json by done.
  cbn [marshal_body]. unfold page_request. cbn [json_request URL].
  destruct (NewRequest_ok _ _); [|done].
  unfold page_answer. by destruct (answer _ _ _).
Qed.


Lemma apply_opts_snoc {O} (opts : list (O → O)) (f : O → O) (o : O) :
  apply_opts (opts ++ [f]) o = f (apply_opts opts o).
Proof. unfold apply_opts. by rewrite foldl_app. Qed.

(** Every request of the loop is a page request with the caller's page
    size, however long the loop runs and whatever comes back. *)
Lemma fetch_pages_requests fuel collection options page acc w :
  ∃ new,
    wire (fetch_pages fuel collection options page acc w).2 = wire w ++ new ∧
    Forall (λ x, query_param "page" x.1 ≠ None ∧
                 query_param "perPage" x.1 =
                   if bool_decide (opt_PerPage options > 0)
                   then Some (Go.Itoa (opt_PerPage options)) else None) new.
Proof.
  revert options page acc w.
  induction fuel as [|fuel IH]; intros options page acc w; cbn [fetch_pages].
  { exists []. by rewrite app_nil_r. }
  rewrite getRecordPage_run. cbn zeta.
  destruct (NewRequest_ok _ _); [|exists []; by rewrite app_nil_r].
  set (req := page_request _ _ _ _).
  assert (Hreq : query_param "page" req ≠ None ∧
                 query_param "perPage" req =
                   if bool_decide (opt_PerPage options > 0)
                   then Some (Go.Itoa (opt_PerPage options)) else None).
  { unfold req. by rewrite page_request_page, page_request_perPage. }
  destruct (page_answer _) as [resp|e];
    [|by exists [(req, (serve (remote w) req).1)]; split; [|constructor]].
  destruct (bool_decide (page >= TotalPages resp)).
  { by exists [(req, (serve (remote w) req).1)]; split; [|constructor]. }
  destruct (IH (set_Page options page) (Go.incr page) (acc ++ Items resp)
              (exchanged w req (serve (remote w) req).1 (serve (remote w) req).2))
    as (new & -> & Hnew).
  exists ((req, (serve (remote w) req).1) :: new). split.
  - cbn. by rewrite <- app_assoc.
  - by constructor.
Qed.

(** C10.  Every request [GetAllRecords] sends has a [page] parameter, and
    has a [perPage] parameter, the caller's page size, exactly when that
    size is positive: with a size of zero or less the parameter is left
    out.  The size is the one set by the caller's last [WithPerPage]. *)
Theorem perPage_only_when_positive fuel collection opts w :
  let options := apply_opts opts default_list_options in
  (∃ new,
     wire (GetAllRecords fuel collection opts w).2 = wire w ++ new ∧
     Forall (λ x, is_Some (query_param "page" x.1) ∧
                  (is_Some (query_param "perPage" x.1) ↔ opt_PerPage options > 0) ∧
                  (is_Some (query_param "perPage" x.1) →
                   query_param "perPage" x.1
                     = Some (Go.Itoa (opt_PerPage options)))) new) ∧
  (∀ perPage,
     opt_PerPage (apply_opts (opts ++ [WithPerPage perPage]) default_list_options)
       = perPage).
Proof.
  intros options. split;
    [|intros perPage;
      exact (f_equal opt_PerPage
               (apply_opts_snoc opts (WithPerPage perPage) default_list_options))].
  assert (Hone : ∀ req : Request,
    query_param "page" req ≠ None ∧
    query_param "perPage" req =
      (if bool_decide (opt_PerPage options > 0)
       then Some (Go.Itoa (opt_PerPage options)) else None) →
    is_Some (query_param "page" req) ∧
    (is_Some (query_param "perPage" req) ↔ opt_PerPage options > 0) ∧
    (is_Some (query_param "perPage" req) →
     query_param "perPage" req = Some (Go.Itoa (opt_PerPage options)))).
  { intros req [Hpage ->]. split; [by destruct (query_param "page" req)|].
    by case_bool_decide; split. }
  unfold GetAllRecords. fold default_list_options. fold options.
  destruct (bool_decide (opt_Page options > 1)).
  - rewrite getRecordPage_run. cbn zeta.
    destruct (NewRequest_ok _ _);
      [|exists []; cbn; rewrite app_nil_r; split; [done|constructor]].
    eexists [_]. split; [by destruct (page_answer _)|].
    constructor; [|done]. apply Hone. cbn [fst].
    by rewrite page_request_page, page_request_perPage.
  - destruct (fetch_pages_requests fuel collection options 1 [] w)
      as (new & Hwire & Hnew).
    exists new. split; [done|].
    eapply Forall_impl; [done|]. intros [req resp]. apply Hone.
Qed.

(** C2.  With an explicit page above 1, and a URL that Go accepts, one
    request goes out, for that page, whatever the fuel; what is returned is
    decided by the one response: its items when it is 2xx and decodes,
    however many pages it reports, and an error otherwise. *)
Theorem explicit_page_single_request fuel collection opts w :
  let options := apply_opts opts default_list_options in
  let req := page_request (client w) collection options (opt_Page options) in
  let resp := (serve (remote w) req).1 in
  opt_Page options > 1 →
  NewRequest_ok "GET" (URL req) = true →
  ∃ outcome,
    GetAllRecords fuel collection opts w =
      (Some outcome, exchanged w req resp (serve (remote w) req).2) ∧
    query_param "page" req = Some (Go.Itoa (opt_Page options)) ∧
    match resp with
    | DoErr => outcome = Err (ErrWrap "failed to execute request")
    | DoResp code text payload =>
        if bool_decide (200 ≤ code < 300) then
          match Decode (T := listResp) payload with
          | Some page => outcome = Ok (Items page)
          | None => outcome = Err (ErrWrap "failed to decode response")
          end
        else outcome = Err (ErrAPI (api_error_of code text payload))
    end.
Proof.
  intros options req resp Hpage Hreq.
  unfold GetAllRecords. fold default_list_options. fold options.
  rewrite bool_decide_eq_true_2 by done.
  rewrite getRecordPage_run. cbn zeta. fold req. rewrite Hreq. fold resp.
  exists (match page_answer resp with
          | Ok records => Ok (Items records) | Err e => Err e end).
  split_and!.
  - by destruct (page_answer resp).
  - apply page_request_page.
  - unfold page_answer, answer. destruct resp as [|code text payload]; [done|].
    destruct (decide (200 ≤ code < 300)).
    + rewrite (bool_decide_eq_false_2 (code < 200 ∨ 300 ≤ code)),
        (bool_decide_eq_true_2 (200 ≤ code < 300)) by lia.
      by destruct (Decode payload).
    + by rewrite (bool_decide_eq_true_2 (code < 200 ∨ 300 ≤ code)),
        (bool_decide_eq_false_2 (200 ≤ code < 300)) by lia.
Qed.

(** *** A service that reports [N] pages *)
Section Paginated.

(** The total that every list response reports; it is a Go [int]. *)
Variable N : Z.
Hypothesis N_is_int : N ≤ Go.int_max.

(** Go accepts the URL of every list request. *)
Hypothesis request_ok : ∀ url, NewRequest_ok "GET" url = true.

(** Every response is 2xx and decodes as a page that reports [N] pages. *)
Hypothesis reports_N : ∀ s req,
  ∃ code text payload page,
    (serve s req).1 = DoResp code text payload ∧ 200 ≤ code < 300 ∧
    Decode (T := listResp) payload = Some page ∧ TotalPages page = N.





End Paginated.

(** ** Beyond the claims: the transport *)

Lemma for_range_error {A W} (P : error → Prop) (step : W → A → result W) :
  (∀ w x e, step w x = Err e → P e) →
  ∀ xs w e, for_range step w xs = Err e → P e.
Proof.
  intros Hstep xs. induction xs as [|x xs IH]; intros w e; cbn; [done|].
  destruct (step w x) as [w'|e'] eqn:Hx; [apply IH|].
  intros [= <-]. by eapply Hstep.
Qed.

Lemma write_form_error f e :
  write_form f = Err e → ∃ stage, e = ErrWrap stage.
Proof.
  unfold write_form.
  set (P := λ e : error, ∃ stage, e = ErrWrap stage).
  assert (Hdata : ∀ data w e, for_range write_data_field w data = Err e → P e).
  { apply (for_range_error P). intros w [key value] e'.
    unfold write_data_field, WriteField, P.
    destruct value; try destruct (json_Marshal _); intros [= <-]; eauto. }
  assert (Hfiles : ∀ key files w e,
            for_range (write_file key) w files = Err e → P e).
  { intros key. apply (for_range_error P). intros w1 file e1.
    unfold write_file, CreateFormFile, io_Copy, P.
    destruct (Reader file); intros [= <-]; eauto. }
  assert (Hdel : ∀ key names w e,
            for_range (write_delete key) w names = Err e → P e).
  { intros key names w e'. by rewrite write_deletes. }
  assert (Hup : ∀ ups w e, write_uploads w ups = Err e → P e).
  { apply (for_range_error P). intros w upload e'. unfold write_upload.
    destruct (if bool_decide _ then _ else _) as [w'|e''] eqn:Hd.
    - apply Hfiles.
    - intros [= <-]. case_bool_decide; [|done]. by eapply Hdel. }
  destruct (FormData f) as [data|].
  - destruct (for_range write_data_field [] data) as [w|e'] eqn:Hd.
    + apply Hup.
    + intros [= <-]. by eapply Hdata.
  - apply Hup.
Qed.

(** [doRequest] step by step: an error of the client's own before anything
    is sent, or one request and the [answer] to what came back. *)
Lemma doRequest_run {T} `{!Unmarshal Body T} method endpoint body out w :
  (∃ stage, doRequest (T := T) method endpoint body out w
              = (Err (ErrWrap stage), w)) ∨
  (∃ req stage,
     request_of (client w) method endpoint body req ∧
     doRequest (T := T) method endpoint body out w =
       (answer stage out (serve (remote w) req).1,
        exchanged w req (serve (remote w) req).1 (serve (remote w) req).2)).
Proof.
  destruct body as [|v|f]; unfold request_of.
  - rewrite doRequest_json by done. cbn [marshal_body].
    destruct (NewRequest_ok _ _); [|by eauto].
    right. exists (json_request (client w) method endpoint ""),
      "failed to execute request". eauto.
  - rewrite doRequest_json by done. cbn [marshal_body].
    destruct (json_Marshal v) as [b|]; [|by eauto].
    destruct (NewRequest_ok _ _); [|by eauto].
    right. exists (json_request (client w) method endpoint b),
      "failed to execute request". eauto.
  - cbn [doRequest]. rewrite doMultipartRequest_run.
    destruct (write_form f) as [parts|e] eqn:Hform.
    + cbn zeta. destruct (NewRequest_ok _ _); [|by eauto].
      right. exists (multipart_request (client w) method endpoint f parts),
        "failed to execute multipart request". eauto.
    + destruct (write_form_error _ _ Hform) as [stage ->]. eauto.
Qed.

Lemma doRequest_client {T} `{!Unmarshal Body T} method endpoint body out w :
  client (doRequest (T := T) method endpoint body out w).2 = client w.
Proof.
  destruct (doRequest_run (T := T) method endpoint body out w)
    as [[stage ->]|(req & stage & _ & ->)]; done.
Qed.

(** The headers that [doRequest] and [doMultipartRequest] set. *)
Lemma headers_of_request {T} `{!Unmarshal Body T} method endpoint body out w :
  ∃ new,
    wire (doRequest (T := T) method endpoint body out w).2 = wire w ++ new ∧
    (length new ≤ 1)%nat ∧
    Forall (λ x,
      Headers x.1 !! "Accept" = Some "application/json" ∧
      Headers x.1 !! "User-Agent" = Some (userAgent (client w)) ∧
      Headers x.1 !! "Content-Type" =
        Some (match body with
              | BodyFiles _ => FormDataContentType
              | _ => "application/json"
              end) ∧
      Headers x.1 !! "Authorization" =
        (if bool_decide (token (client w) = "") then None
         else Some (token (client w))) ∧
      dom (Headers x.1) ⊆ {[ "Accept"; "User-Agent"; "Content-Type";
                             "Authorization" ]}) new.
Proof.
  destruct (doRequest_run (T := T) method endpoint body out w)
    as [[stage ->]|(req & stage & Hreq & ->)]; [nothing_sent|].
  exists [(req, (serve (remote w) req).1)]. split_and!; [done|done|].
  constructor; [|done]. cbn [fst].
  assert (Hh : ∃ ct, Headers req = json_headers (client w) ct ∧
                 ct = match body with
                      | BodyFiles _ => FormDataContentType
                      | _ => "application/json"
                      end).
  { unfold request_of in Hreq.
    destruct body; destruct Hreq as (? & _ & ->); eauto. }
  destruct Hh as (ct & -> & <-). unfold json_headers.
  destruct (decide (token (client w) = "")) as [Htok|Htok].
  - rewrite (bool_decide_eq_false_2 (token (client w) ≠ ""))
      by (intros Hne; by apply Hne).
    rewrite (bool_decide_eq_true_2 (token (client w) = "")) by done.
    split_and!; [by simplify_map_eq..|]. rewrite !dom_insert_L, dom_empty_L.
    apply elem_of_subseteq. intros k.
    rewrite !elem_of_union, !elem_of_singleton, elem_of_empty. tauto.
  - rewrite (bool_decide_eq_true_2 (token (client w) ≠ "")) by done.
    rewrite (bool_decide_eq_false_2 (token (client w) = "")) by done.
    split_and!; [by simplify_map_eq..|]. rewrite !dom_insert_L, dom_empty_L.
    apply elem_of_subseteq. intros k.
    rewrite !elem_of_union, !elem_of_singleton, elem_of_empty. tauto.
Qed.

(** X1.  The headers of a request: [Accept] and [User-Agent] always,
    [Content-Type] by the kind of body, [Authorization] with the bare token
    exactly when the token is not empty, and no fifth header. *)
Theorem request_headers {T} `{!Unmarshal Body T} method endpoint body out w :
  ∃ new,
    wire (doRequest (T := T) method endpoint body out w).2 = wire w ++ new ∧
    (length new ≤ 1)%nat ∧
    Forall (λ x,
      Headers x.1 !! "Accept" = Some "application/json" ∧
      Headers x.1 !! "User-Agent" = Some (userAgent (client w)) ∧
      Headers x.1 !! "Content-Type" =
        Some (match body with
              | BodyFiles _ => FormDataContentType
              | _ => "application/json"
              end) ∧
      Headers x.1 !! "Authorization" =
        (if bool_decide (token (client w) = "") then None
         else Some (token (client w))) ∧
      dom (Headers x.1) ⊆ {[ "Accept"; "User-Agent"; "Content-Type";
                             "Authorization" ]}) new.
Proof. apply headers_of_request. Qed.

(** X2.  An [*APIError] is only ever made from a response that is not 2xx:
    when [doRequest] returns one, exactly one request was sent, the
    response to it was outside 200..299, and the error is the one read off
    that response. *)
Theorem APIError_only_from_response {T} `{!Unmarshal Body T}
    method endpoint body out w e :
  (doRequest (T := T) method endpoint body out w).1 = Err (ErrAPI e) →
  ∃ req code text payload,
    wire (doRequest (T := T) method endpoint body out w).2
      = wire w ++ [(req, DoResp code text payload)] ∧
    (code < 200 ∨ 300 ≤ code) ∧
    e = api_error_of code text payload.
Proof.
  destruct (doRequest_run (T := T) method endpoint body out w)
    as [[stage ->]|(req & stage & _ & ->)]; [done|].
  cbn [fst snd exchanged wire]. unfold answer.
  destruct (serve (remote w) req).1 as [|code text payload]; [done|].
  case_bool_decide as Hcode.
  - intros [= <-]. by exists req, code, text, payload.
  - destruct out; [destruct (Decode payload)|]; done.
Qed.

(** X3.  A 2xx response is never an error of the API.  With no destination
    the body is not looked at and the call succeeds; with a destination the
    call returns what the body decodes to, and fails with a decode error of
    the client's own when it does not decode. *)
Theorem response_2xx {T} `{!Unmarshal Body T}
    method endpoint body out w req code text payload :
  wire (doRequest (T := T) method endpoint body out w).2
    = wire w ++ [(req, DoResp code text payload)] →
  200 ≤ code < 300 →
  (doRequest (T := T) method endpoint body out w).1 =
    if out then
      match Decode (T := T) payload with
      | Some v => Ok (Some v)
      | None => Err (ErrWrap "failed to decode response")
      end
    else Ok None.
Proof.
  intros Hwire Hcode.
  destruct (doRequest_run (T := T) method endpoint body out w)
    as [[stage Hrun]|(req' & stage & _ & Hrun)]; rewrite Hrun in Hwire |- *.
  - cbn in Hwire. by destruct (wire_not_extended _ _ Hwire).
  - cbn in Hwire. apply app_inv_head in Hwire.
    injection Hwire as -> Hresp. cbn [fst]. rewrite Hresp.
    unfold answer. rewrite bool_decide_eq_false_2 by lia.
    destruct out; [by destruct (Decode payload)|done].
Qed.

(** ** Beyond the claims: the operations *)

Lemma len_positive {A} (l : list A) : Go.len l > 0 ↔ l ≠ [].
Proof. unfold Go.len. destruct l; cbn; split; (done || lia). Qed.

Lemma len_nil_not_positive {A} : bool_decide (Go.len (@nil A) > 0) = false.
Proof. done. Qed.

Lemma query_options_params_expand e f :
  query_options_params e f ∅ !! "expand" ≫= head = joined e.
Proof.
  unfold query_options_params, joined, Values_Set.
  destruct (decide (e = [])) as [->|He]; destruct (decide (f = [])) as [->|Hf].
  all: rewrite ?(bool_decide_eq_true_2 (_ = [])) by done.
  all: rewrite ?(bool_decide_eq_false_2 (_ = [])) by done.
  all: rewrite ?(bool_decide_eq_true_2 (Go.len e > 0)) by by apply len_positive.
  all: rewrite ?(bool_decide_eq_true_2 (Go.len f > 0)) by by apply len_positive.
  all: by simplify_map_eq.
Qed.

Lemma query_options_params_fields e f :
  query_options_params e f ∅ !! "fields" ≫= head = joined f.
Proof.
  unfold query_options_params, joined, Values_Set.
  destruct (decide (e = [])) as [->|He]; destruct (decide (f = [])) as [->|Hf].
  all: rewrite ?(bool_decide_eq_true_2 (_ = [])) by done.
  all: rewrite ?(bool_decide_eq_false_2 (_ = [])) by done.
  all: rewrite ?(bool_decide_eq_true_2 (Go.len e > 0)) by by apply len_positive.
  all: rewrite ?(bool_decide_eq_true_2 (Go.len f > 0)) by by apply len_positive.
  all: by simplify_map_eq.
Qed.

Lemma query_options_params_any e f :
  Go.len_map (query_options_params e f ∅) > 0 ↔ ¬ (e = [] ∧ f = []).
Proof.
  unfold query_options_params, Values_Set, Go.len_map.
  destruct (decide (e = [])) as [->|He]; destruct (decide (f = [])) as [->|Hf].
  all: rewrite ?(bool_decide_eq_true_2 (Go.len e > 0)) by by apply len_positive.
  all: rewrite ?(bool_decide_eq_true_2 (Go.len f > 0)) by by apply len_positive.
  all: rewrite ?len_nil_not_positive.
  - rewrite map_size_empty. split; [lia|]. intros Hno. by destruct Hno.
  - rewrite map_size_insert_None by done. split; [by intros _ [_ ?]|lia].
  - rewrite map_size_insert_None by done. split; [by intros _ [? _]|lia].
  - rewrite map_size_insert_None by by simplify_map_eq.
    split; [by intros _ [? _]|lia].
Qed.

(** The request of a JSON operation on an endpoint with optional query. *)
Lemma json_request_shape c method p options body b :
  marshal_body body = Some b →
  record_request c method p options body
    (json_request c method
       (add_query_if_any {| path := p; queries := [] |}
          (query_options_params (Expand options) (Fields options) ∅)) b).
Proof.
  intros Hb. unfold record_request, add_query_if_any, query_param.
  cbn [json_request Method URL ReqBody prefix_url].
  destruct (decide (Expand options = [] ∧ Fields options = [])) as [Hnone|Hsome].
  - rewrite bool_decide_eq_false_2 by (by rewrite query_options_params_any; tauto).
    destruct Hnone as [-> ->]. cbn. split_and!; eauto; done.
  - rewrite bool_decide_eq_true_2 by by rewrite query_options_params_any.
    cbn [add_query path queries app head mbind option_bind Values_Get].
    split_and!; [done|done|apply query_options_params_expand
                |apply query_options_params_fields|by split|cbn; lia|eauto].
Qed.

Lemma json_operation {T} `{!Unmarshal Body T} method endpoint body out w :
  (∀ f, body ≠ BodyFiles f) →
  ∃ new,
    wire (doRequest (T := T) method endpoint body out w).2 = wire w ++ new ∧
    (length new ≤ 1)%nat ∧
    Forall (λ x, ∃ b, marshal_body body = Some b ∧
                      x.1 = json_request (client w) method endpoint b) new.
Proof.
  intros Hbody.
  destruct (doRequest_run (T := T) method endpoint body out w)
    as [[stage ->]|(req & stage & Hreq & ->)]; [nothing_sent|].
  exists [(req, (serve (remote w) req).1)]. split_and!; [done|done|].
  constructor; [|done]. unfold request_of in Hreq.
  destruct body; [done|done|by destruct (Hbody fileUploads)].
Qed.

(** Mapping the result of a call does not touch the world. *)
Lemma bind_ret_world {A B} (m : M A) (f : A → B) w :
  ((m ≫= λ a, mret (f a)) w).2 = (m w).2.
Proof. unfold mbind, M_bind, mret, M_ret. by destruct (m w) as [[a|e] w']. Qed.

(** X4.  [GetRecord], [CreateRecord] and [UpdateRecord] send at most one
    request each: GET, POST and PATCH on the record's or the collection's
    path under the base URL; [expand] and [fields] are the option's names
    joined by commas, and there is no query at all when both are empty.
    The read has no body; create and update carry the encoding of the
    record. *)
Theorem record_requests collection recordID record opts w :
  let options := apply_opts opts {| Expand := []; Fields := [] |} in
  (∃ new,
     wire (GetRecord collection recordID opts w).2 = wire w ++ new ∧
     (length new ≤ 1)%nat ∧
     Forall (λ x, record_request (client w) "GET"
                    ("/api/collections/" +:+ collection +:+ "/records/"
                       +:+ recordID)
                    options BodyNil x.1 ∧ ReqBody x.1 = Bytes "") new) ∧
  (∃ new,
     wire (CreateRecord collection record opts w).2 = wire w ++ new ∧
     (length new ≤ 1)%nat ∧
     Forall (λ x, record_request (client w) "POST"
                    ("/api/collections/" +:+ collection +:+ "/records")
                    options (BodyJSON (of_Record record)) x.1) new) ∧
  (∃ new,
     wire (UpdateRecord collection recordID record opts w).2 = wire w ++ new ∧
     (length new ≤ 1)%nat ∧
     Forall (λ x, record_request (client w) "PATCH"
                    ("/api/collections/" +:+ collection +:+ "/records/"
                       +:+ recordID)
                    options (BodyJSON (of_Record record)) x.1) new).
Proof.
  intros options. split_and!.
  - unfold GetRecord. rewrite bind_ret_world. fold options.
    match goal with |- context [doRequest ?m ?e ?b ?o w] =>
      destruct (json_operation (T := Record) m e b o w) as (new & -> & Hlen & Hnew);
        [done|] end.
    exists new. split_and!; [done|done|].
    eapply Forall_impl; [done|]. intros [req resp] (b & Hb & ->).
    split; [by apply json_request_shape|]. by injection Hb as <-.
  - unfold CreateRecord. rewrite bind_ret_world. fold options.
    match goal with |- context [doRequest ?m ?e ?b ?o w] =>
      destruct (json_operation (T := Record) m e b o w) as (new & -> & Hlen & Hnew);
        [done|] end.
    exists new. split_and!; [done|done|].
    eapply Forall_impl; [done|]. intros [req resp] (b & Hb & ->).
    by apply json_request_shape.
  - unfold UpdateRecord. rewrite bind_ret_world. fold options.
    match goal with |- context [doRequest ?m ?e ?b ?o w] =>
      destruct (json_operation (T := Record) m e b o w) as (new & -> & Hlen & Hnew);
        [done|] end.
    exists new. split_and!; [done|done|].
    eapply Forall_impl; [done|]. intros [req resp] (b & Hb & ->).
    by apply json_request_shape.
Qed.

(** What a value returned by [doRequest] comes from. *)
Lemma doRequest_ok {T} `{!Unmarshal Body T} method endpoint body out w v :
  (doRequest (T := T) method endpoint body out w).1 = Ok v →
  ∃ req code text payload,
    wire (doRequest (T := T) method endpoint body out w).2
      = wire w ++ [(req, DoResp code text payload)] ∧
    200 ≤ code < 300 ∧
    request_of (client w) method endpoint body req ∧
    v = (if out then Decode (T := T) payload else None) ∧
    (out = true → is_Some v).
Proof.
  destruct (doRequest_run (T := T) method endpoint body out w)
    as [[stage ->]|(req & stage & Hreq & ->)]; [done|].
  cbn [fst snd exchanged wire]. unfold answer.
  destruct (serve (remote w) req).1 as [|code text payload]; [done|].
  case_bool_decide as Hcode; [done|].
  destruct out; [destruct (Decode payload) as [d|] eqn:Hd|]; intros [= <-].
  - exists req, code, text, payload. rewrite Hd. split_and!; eauto; lia.
  - exists req, code, text, payload. split_and!; eauto; (done || lia).
Qed.

(** X5.  [doRequest] returns a value only when exactly one request went out
    and the response to it was 2xx; with a destination the value is what
    the body of that response decodes to. *)
Theorem doRequest_value {T} `{!Unmarshal Body T} method endpoint body out w v :
  (doRequest (T := T) method endpoint body out w).1 = Ok v →
  ∃ req code text payload,
    wire (doRequest (T := T) method endpoint body out w).2
      = wire w ++ [(req, DoResp code text payload)] ∧
    200 ≤ code < 300 ∧
    request_of (client w) method endpoint body req ∧
    v = (if out then Decode (T := T) payload else None) ∧
    (out = true → is_Some v).
Proof. apply doRequest_ok. Qed.

Lemma fetch_pages_client fuel collection options page acc w :
  client (fetch_pages fuel collection options page acc w).2 = client w.
Proof.
  revert options page acc w.
  induction fuel as [|fuel IH]; intros options page acc w; cbn [fetch_pages];
    [done|].
  rewrite getRecordPage_run. cbn zeta.
  destruct (NewRequest_ok _ _); [|done].
  destruct (page_answer _) as [resp|e]; [|done].
  destruct (bool_decide _); [done|]. by rewrite IH.
Qed.

(** X6.  Only authentication writes the token: impersonation, the record
    operations, the uploads and the listing leave the client as it was,
    whatever comes back. *)
Theorem client_untouched collection recordID record duration qopts lopts fopts
    fuel w :
  client (Impersonate collection recordID duration qopts w).2 = client w ∧
  client (GetRecord collection recordID qopts w).2 = client w ∧
  client (CreateRecord collection record qopts w).2 = client w ∧
  client (UpdateRecord collection recordID record qopts w).2 = client w ∧
  client (CreateRecordWithFiles collection fopts w).2 = client w ∧
  client (UpdateRecordWithFiles collection recordID fopts w).2 = client w ∧
  client (GetAllRecords fuel collection lopts w).2 = client w.
Proof.
  split_and!.
  1-6: unfold Impersonate, GetRecord, CreateRecord, UpdateRecord,
         CreateRecordWithFiles, UpdateRecordWithFiles;
       rewrite bind_ret_world; apply doRequest_client.
  unfold GetAllRecords. destruct (bool_decide _); [|apply fetch_pages_client].
  rewrite getRecordPage_run. cbn zeta.
  destruct (NewRequest_ok _ _); [|done]. by destruct (page_answer _).
Qed.

(** X7.  When [Impersonate] succeeds, one request got a 2xx response that
    decoded, and the result holds the token and the record of that
    response; the token stays with the caller: the client's own is as
    before. *)
Theorem Impersonate_result collection recordID duration opts w result :
  (Impersonate collection recordID duration opts w).1 = Ok result →
  ∃ req code text payload resp,
    wire (Impersonate collection recordID duration opts w).2
      = wire w ++ [(req, DoResp code text payload)] ∧
    200 ≤ code < 300 ∧
    Decode (T := impersonateResp) payload = Some resp ∧
    result = {| res_Token := imp_Token resp; res_Record := imp_Record resp |} ∧
    token (client (Impersonate collection recordID duration opts w).2)
      = token (client w).
Proof.
  unfold Impersonate. run_M.
  match goal with |- context [doRequest ?m ?e ?b ?o w] =>
    pose proof (doRequest_ok (T := impersonateResp) m e b o w) as Hv;
    pose proof (doRequest_client (T := impersonateResp) m e b o w) as Hc;
    destruct (doRequest (T := impersonateResp) m e b o w) as [[v|e'] w']
  end; [|done].
  cbn [fst snd] in *. intros [= <-].
  destruct (Hv v eq_refl)
    as (req & code & text & payload & -> & Hcode & _ & -> & Hsome).
  destruct (Hsome eq_refl) as [resp Hd]. rewrite Hd.
  exists req, code, text, payload, resp. by rewrite Hc.
Qed.

(** X8.  The request of [AuthenticateWithPassword]: at most one, a POST on
    the collection's [auth-with-password] path with no query, whose body is
    the encoding of the object with the two members [identity] and
    [password]; the superuser variant is the same on [_superusers]. *)
Theorem authentication_request collection identity password w :
  (∃ new,
     wire (AuthenticateWithPassword collection identity password w).2
       = wire w ++ new ∧
     (length new ≤ 1)%nat ∧
     Forall (λ x,
       Method x.1 = "POST" ∧
       path (URL x.1) = BaseURL (client w) +:+ "/api/collections/"
                          +:+ collection +:+ "/auth-with-password" ∧
       queries (URL x.1) = [] ∧
       ∃ b, json_Marshal (AMap (<["identity" := AString identity]>
                               (<["password" := AString password]> ∅)))
              = Some b ∧
            ReqBody x.1 = Bytes b) new) ∧
  (wire (AuthenticateAsSuperuser identity password w).2).*1
    = (wire (AuthenticateWithPassword "_superusers" identity password w).2).*1.
Proof.
  split; [|done]. unfold AuthenticateWithPassword. run_M.
  match goal with |- context [doRequest ?m ?e ?b ?o w] =>
    destruct (json_operation (T := authResp) m e b o w)
      as (new & Hwire & Hlen & Hnew); [done|];
    destruct (doRequest (T := authResp) m e b o w) as [[v|e'] w']
  end; cbn [fst snd] in *.
  all: exists new; split_and!; [done|done|].
  all: eapply Forall_impl; [done|]; intros [req resp] (b & Hb & ->).
  all: unfold marshal_body, of_string_map in Hb.
  all: rewrite !fmap_insert, fmap_empty in Hb.
  all: rewrite insert_insert_ne in Hb by done.
  all: split_and!; [done|done|done|eauto].
Qed.

(** X9.  After a successful authentication the next request carries the
    token of the auth response, as it is, in [Authorization]; a response
    whose token is empty leaves the next request without that header. *)
Theorem authenticated_requests {T} `{!Unmarshal Body T}
    collection identity password w record method endpoint body out :
  (AuthenticateWithPassword collection identity password w).1 = Ok record →
  let w1 := (AuthenticateWithPassword collection identity password w).2 in
  ∃ req code text payload resp new,
    wire w1 = wire w ++ [(req, DoResp code text payload)] ∧
    Decode (T := authResp) payload = Some resp ∧
    wire (doRequest (T := T) method endpoint body out w1).2 = wire w1 ++ new ∧
    Forall (λ x, Headers x.1 !! "Authorization" =
                   if bool_decide (auth_Token resp = "") then None
                   else Some (auth_Token resp)) new.
Proof.
  unfold AuthenticateWithPassword. run_M.
  match goal with |- context [doRequest ?m ?e ?b ?o w] =>
    pose proof (doRequest_ok (T := authResp) m e b o w) as Hv;
    destruct (doRequest (T := authResp) m e b o w) as [[v|e'] w']
  end; [|done].
  cbn [fst snd] in *. intros _.
  destruct (Hv v eq_refl)
    as (req & code & text & payload & Hwire & Hcode & _ & -> & Hsome).
  destruct (Hsome eq_refl) as [resp Hd]. rewrite Hd. cbn [default from_option].
  set (w1 := (SetToken (auth_Token resp) w').2).
  destruct (headers_of_request (T := T) method endpoint body out w1)
    as (new & Hnew & _ & Hheaders).
  exists req, code, text, payload, resp, new. split_and!; [done|done|done|].
  eapply Forall_impl; [done|]. by intros x (_ & _ & _ & Hauth & _).
Qed.

Lemma multipart_request_shape c method p options parts :
  write_form options = Ok parts →
  upload_request c method p options
    (multipart_request c method {| path := p; queries := [] |} options parts).
Proof.
  intros Hparts. unfold upload_request, multipart_request, add_query_if_any,
    query_param.
  cbn [Method URL ReqBody prefix_url].
  destruct (decide (Expand (FQuery options) = [] ∧ Fields (FQuery options) = []))
    as [Hnone|Hsome].
  - rewrite bool_decide_eq_false_2 by (by rewrite query_options_params_any; tauto).
    destruct Hnone as [-> ->]. cbn. split_and!; eauto; done.
  - rewrite bool_decide_eq_true_2 by by rewrite query_options_params_any.
    cbn [add_query path queries app head mbind option_bind Values_Get].
    split_and!; [done|done|apply query_options_params_expand
                |apply query_options_params_fields|by split|eauto].
Qed.

Lemma upload_operation {T} `{!Unmarshal Body T} method p options out w :
  ∃ new,
    wire (doRequest (T := T) method {| path := p; queries := [] |}
            (BodyFiles options) out w).2 = wire w ++ new ∧
    (length new ≤ 1)%nat ∧
    Forall (λ x, upload_request (client w) method p options x.1) new.
Proof.
  destruct (doRequest_run (T := T) method {| path := p; queries := [] |}
              (BodyFiles options) out w)
    as [[stage ->]|(req & stage & Hreq & ->)]; [nothing_sent|].
  exists [(req, (serve (remote w) req).1)]. split_and!; [done|done|].
  constructor; [|done]. destruct Hreq as (parts & Hparts & ->).
  by apply multipart_request_shape.
Qed.

(** X20.  [CreateRecordWithFiles] and [UpdateRecordWithFiles] send at most
    one request each, a POST on the collection's records path and a PATCH
    on the record's path, whose body is the parts of the bundle that the
    options built, and whose query holds the bundle's [expand] and
    [fields], with no query at all when both are empty. *)
Theorem upload_requests collection recordID fileUploads w :
  let options :=
    apply_opts fileUploads
      {| Uploads := []; FormData := None;
         FQuery := {| Expand := []; Fields := [] |} |} in
  (∃ new,
     wire (CreateRecordWithFiles collection fileUploads w).2 = wire w ++ new ∧
     (length new ≤ 1)%nat ∧
     Forall (λ x, upload_request (client w) "POST"
                    ("/api/collections/" +:+ collection +:+ "/records")
                    options x.1) new) ∧
  (∃ new,
     wire (UpdateRecordWithFiles collection recordID fileUploads w).2
       = wire w ++ new ∧
     (length new ≤ 1)%nat ∧
     Forall (λ x, upload_request (client w) "PATCH"
                    ("/api/collections/" +:+ collection +:+ "/records/"
                       +:+ recordID)
                    options x.1) new).
Proof.
  intros options. split.
  - unfold CreateRecordWithFiles. rewrite bind_ret_world.
    apply (upload_operation (T := Record)).
  - unfold UpdateRecordWithFiles. rewrite bind_ret_world.
    apply (upload_operation (T := Record)).
Qed.

(** ** Beyond the claims: the listing *)

Lemma fetch_pages_requested_page fuel collection options q page acc w :
  fetch_pages fuel collection (set_Page options q) page acc w
    = fetch_pages fuel collection options page acc w.
Proof. by destruct fuel. Qed.

(** X10.  A requested page of 1 or below does not choose a page: the listing
    runs as if page 1 had been asked for, from page 1 on. *)
Theorem requested_page_below_two fuel collection opts p w :
  p ≤ 1 →
  GetAllRecords fuel collection (opts ++ [WithPage p]) w
    = GetAllRecords fuel collection (opts ++ [WithPage 1]) w.
Proof.
  intros Hp. unfold GetAllRecords. fold default_list_options.
  assert (Hsnoc : ∀ q, apply_opts (opts ++ [WithPage q]) default_list_options
                       = WithPage q (apply_opts opts default_list_options))
    by (intros q; apply apply_opts_snoc).
  rewrite !Hsnoc. rewrite !bool_decide_eq_false_2 by (cbn; lia).
  set (options := apply_opts opts default_list_options).
  exact (eq_trans
           (fetch_pages_requested_page fuel collection options p 1 [] w)
           (eq_sym (fetch_pages_requested_page fuel collection options 1 1 [] w))).
Qed.

Lemma page_request_sort c collection options page :
  query_param "sort" (page_request c collection options page)
    = unless_empty (opt_Sort options).
Proof.
  unfold query_param, page_request, list_params, Values_Get, Values_Set,
    unless_empty.
  cbn [json_request URL prefix_url add_query queries app head mbind option_bind].
  destruct (decide (opt_Sort options = "")) as [Hs|Hs].
  - rewrite (bool_decide_eq_false_2 (opt_Sort options ≠ ""))
      by (intros Hne; by apply Hne).
    rewrite (bool_decide_eq_true_2 (opt_Sort options = "")) by done.
    repeat case_bool_decide; by simplify_map_eq.
  - rewrite (bool_decide_eq_true_2 (opt_Sort options ≠ "")) by done.
    rewrite (bool_decide_eq_false_2 (opt_Sort options = "")) by done.
    repeat case_bool_decide; by simplify_map_eq.
Qed.

Lemma page_request_filter c collection options page :
  query_param "filter" (page_request c collection options page)
    = unless_empty (opt_Filter options).
Proof.
  unfold query_param, page_request, list_params, Values_Get, Values_Set,
    unless_empty.
  cbn [json_request URL prefix_url add_query queries app head mbind option_bind].
  destruct (decide (opt_Filter options = "")) as [Hs|Hs].
  - rewrite (bool_decide_eq_false_2 (opt_Filter options ≠ ""))
      by (intros Hne; by apply Hne).
    rewrite (bool_decide_eq_true_2 (opt_Filter options = "")) by done.
    repeat case_bool_decide; by simplify_map_eq.
  - rewrite (bool_decide_eq_true_2 (opt_Filter options ≠ "")) by done.
    rewrite (bool_decide_eq_false_2 (opt_Filter options = "")) by done.
    repeat case_bool_decide; by simplify_map_eq.
Qed.

Lemma page_request_expand c collection options page :
  query_param "expand" (page_request c collection options page)
    = joined (opt_Expand options).
Proof.
  unfold query_param, page_request, list_params, Values_Get, Values_Set, joined.
  cbn [json_request URL prefix_url add_query queries app head mbind option_bind].
  destruct (opt_Expand options) as [|name names].
  - repeat case_bool_decide; try done; by simplify_map_eq.
  - rewrite (bool_decide_eq_true_2 (Go.len (name :: names) > 0))
      by by apply len_positive.
    rewrite (bool_decide_eq_false_2 (name :: names = [])) by done.
    repeat case_bool_decide; by simplify_map_eq.
Qed.

Lemma page_request_fields c collection options page :
  query_param "fields" (page_request c collection options page)
    = joined (opt_Fields options).
Proof.
  unfold query_param, page_request, list_params, Values_Get, Values_Set, joined.
  cbn [json_request URL prefix_url add_query queries app head mbind option_bind].
  destruct (opt_Fields options) as [|name names].
  - repeat case_bool_decide; try done; by simplify_map_eq.
  - rewrite (bool_decide_eq_true_2 (Go.len (name :: names) > 0))
      by by apply len_positive.
    rewrite (bool_decide_eq_false_2 (name :: names = [])) by done.
    repeat case_bool_decide; by simplify_map_eq.
Qed.

(** The requests of the loop are page requests for the caller's options. *)
Lemma fetch_pages_page_requests fuel collection options page acc w :
  ∃ new,
    wire (fetch_pages fuel collection options page acc w).2 = wire w ++ new ∧
    Forall (λ x, ∃ p, x.1 = page_request (client w) collection options p) new.
Proof.
  revert options page acc w.
  induction fuel as [|fuel IH]; intros options page acc w; cbn [fetch_pages].
  { exists []. by rewrite app_nil_r. }
  rewrite getRecordPage_run. cbn zeta.
  destruct (NewRequest_ok _ _); [|exists []; by rewrite app_nil_r].
  set (req := page_request _ _ _ _).
  assert (Hreq : ∃ p, req = page_request (client w) collection options p)
    by by exists page.
  destruct (page_answer _) as [resp|e];
    [|by exists [(req, (serve (remote w) req).1)]; split; [|constructor]].
  destruct (bool_decide (page >= TotalPages resp)).
  { by exists [(req, (serve (remote w) req).1)]; split; [|constructor]. }
  destruct (IH (set_Page options page) (Go.incr page) (acc ++ Items resp)
              (exchanged w req (serve (remote w) req).1 (serve (remote w) req).2))
    as (new & -> & Hnew).
  exists ((req, (serve (remote w) req).1) :: new). split.
  - cbn. by rewrite <- app_assoc.
  - by constructor.
Qed.

(** X11.  Every request of a listing, first or last, is a GET on the
    collection's records path under the base URL, with no body, and with
    the caller's [sort], [filter], [expand] and [fields]: each of them
    present exactly when it is not empty, the lists joined by commas. *)
Theorem list_requests fuel collection opts w :
  let options := apply_opts opts default_list_options in
  ∃ new,
    wire (GetAllRecords fuel collection opts w).2 = wire w ++ new ∧
    Forall (λ x,
      Method x.1 = "GET" ∧
      path (URL x.1) = BaseURL (client w) +:+ "/api/collections/"
                         +:+ collection +:+ "/records" ∧
      ReqBody x.1 = Bytes "" ∧
      query_param "sort" x.1 = unless_empty (opt_Sort options) ∧
      query_param "filter" x.1 = unless_empty (opt_Filter options) ∧
      query_param "expand" x.1 = joined (opt_Expand options) ∧
      query_param "fields" x.1 = joined (opt_Fields options)) new.
Proof.
  intros options.
  assert (Hshape : ∀ x : Request * DoResult Body,
    (∃ p, x.1 = page_request (client w) collection options p) →
    Method x.1 = "GET" ∧
    path (URL x.1) = BaseURL (client w) +:+ "/api/collections/"
                       +:+ collection +:+ "/records" ∧
    ReqBody x.1 = Bytes "" ∧
    query_param "sort" x.1 = unless_empty (opt_Sort options) ∧
    query_param "filter" x.1 = unless_empty (opt_Filter options) ∧
    query_param "expand" x.1 = joined (opt_Expand options) ∧
    query_param "fields" x.1 = joined (opt_Fields options)).
  { intros x [p ->].
    rewrite page_request_sort, page_request_filter, page_request_expand,
      page_request_fields. done. }
  unfold GetAllRecords. fold default_list_options. fold options.
  destruct (bool_decide (opt_Page options > 1)).
  - rewrite getRecordPage_run. cbn zeta.
    destruct (NewRequest_ok _ _);
      [|exists []; cbn; rewrite app_nil_r; split; [done|constructor]].
    eexists [_]. split; [by destruct (page_answer _)|].
    constructor; [|done]. apply Hshape. by eexists.
  - destruct (fetch_pages_page_requests fuel collection options 1 [] w)
      as (new & Hwire & Hnew).
    exists new. split; [done|]. eapply Forall_impl; [done|]. apply Hshape.
Qed.

(** *** A service whose totals are Go [int]s *)
Section IntTotals.

(** encoding/json rejects a number that does not fit the field, so the
    total of a decoded page is an [int]. *)
Hypothesis total_is_int : ∀ s req code text payload resp,
  (serve s req).1 = DoResp code text payload →
  Decode (T := listResp) payload = Some resp →
  TotalPages resp ≤ Go.int_max.

Lemma page_answer_delivered resp page :
  page_answer resp = Ok page →
  ∃ code text payload,
    resp = DoResp code text payload ∧ 200 ≤ code < 300 ∧
    Decode (T := listResp) payload = Some page.
Proof.
  unfold page_answer, answer. destruct resp as [|code text payload]; [done|].
  case_bool_decide as Hcode; [done|].
  destruct (Decode payload) as [d|] eqn:Hd; [|done].
  intros [= <-]. exists code, text, payload. split_and!; (done || lia).
Qed.

Lemma items_of_delivered req resp page :
  page_answer resp = Ok page → items_of (req, resp) = Items page.
Proof.
  intros (code & text & payload & -> & _ & Hd)%page_answer_delivered.
  unfold items_of. cbn. by rewrite Hd.
Qed.

Lemma more_pages_cons page x earlier resp :
  page_answer x.2 = Ok resp → page < TotalPages resp →
  more_pages (page + 1) earlier → more_pages page (x :: earlier).
Proof.
  intros Hx Hmore Hearlier [|i] y; cbn.
  - intros [= <-]. exists resp. split; [done|lia].
  - intros Hy. destruct (Hearlier i y Hy) as (r & Hr & Hlt).
    exists r. split; [done|lia].
Qed.

Lemma more_pages_nil page : more_pages page [].
Proof. by intros i x. Qed.

Lemma single_page (x : Request * DoResult Body) page :
  page_of x = Some (Go.Itoa page) →
  page_of <$> [x]
    = (λ p, Some (Go.Itoa p)) <$> seqZ page (Z.of_nat (length [x])).
Proof.
  intros Hx. rewrite (seqZ_cons page) by (cbn; lia). cbn. by rewrite Hx.
Qed.

(** The loop, whatever the service does: which pages it asks for, when it
    stops, and with what. *)
Lemma fetch_pages_trace collection fuel :
  ∀ page options acc w, 1 ≤ page →
    ∃ new,
      wire (fetch_pages fuel collection options page acc w).2 = wire w ++ new ∧
      page_of <$> new
        = (λ p, Some (Go.Itoa p)) <$> seqZ page (Z.of_nat (length new)) ∧
      match (fetch_pages fuel collection options page acc w).1 with
      | Some (Ok records) =>
          ∃ earlier last resp,
            new = earlier ++ [last] ∧ more_pages page earlier ∧
            page_answer last.2 = Ok resp ∧
            TotalPages resp ≤ page + Z.of_nat (length earlier) ∧
            records = acc ++ (new ≫= items_of)
      | Some (Err e) =>
          (more_pages page new ∧ e = ErrWrap "failed to create request") ∨
          (∃ earlier last,
             new = earlier ++ [last] ∧ more_pages page earlier ∧
             page_answer last.2 = Err e)
      | None => more_pages page new ∧ length new = fuel
      end.
Proof.
  induction fuel as [|fuel IH]; intros page options acc w Hpage;
    cbn [fetch_pages].
  { exists []. rewrite app_nil_r. split_and!; try done; apply more_pages_nil. }
  rewrite getRecordPage_run. cbn zeta.
  destruct (NewRequest_ok _ _).
  2:{ exists []. rewrite app_nil_r. split_and!; try done.
      left. split; [apply more_pages_nil|done]. }
  set (req := page_request _ _ _ _).
  set (x := (req, (serve (remote w) req).1)).
  assert (Hx : page_of x = Some (Go.Itoa page)) by apply page_request_page.
  destruct (page_answer (serve (remote w) req).1) as [resp|e] eqn:Hans.
  2:{ exists [x]. split_and!; [done|by apply single_page|].
      right. exists [], x. split_and!; [done|apply more_pages_nil|done]. }
  destruct (decide (page >= TotalPages resp)) as [Hlast|Hmore].
  { rewrite bool_decide_eq_true_2 by done.
    exists [x]. split_and!; [done|by apply single_page|].
    exists [], x, resp. split_and!; [done|apply more_pages_nil|done|cbn; lia|].
    cbn [mbind list_bind]. unfold x.
    rewrite (items_of_delivered _ _ resp) by done. by rewrite app_nil_r. }
  rewrite bool_decide_eq_false_2 by done.
  destruct (page_answer_delivered _ _ Hans)
    as (code & text & payload & Hresp & _ & Hd).
  pose proof (total_is_int _ _ _ _ _ _ Hresp Hd) as Hint.
  unfold Go.incr. rewrite wrap_is_int
    by (unfold Go.is_int, Go.int_min, Go.int_max in *; lia).
  destruct (IH (page + 1) (set_Page options page) (acc ++ Items resp)
              (exchanged w req (serve (remote w) req).1 (serve (remote w) req).2))
    as (new & Hwire & Hpages & Hrun); [lia|].
  exists (x :: new). split_and!.
  - rewrite Hwire. cbn. by rewrite <- app_assoc.
  - cbn [length]. rewrite (seqZ_cons page) by lia. cbn [fmap list_fmap].
    f_equal; [done|]. rewrite Hpages. do 2 f_equal; lia.
  - destruct (fetch_pages _ _ _ _ _ _).1 as [[records|e]|].
    + destruct Hrun as (earlier & last & r & -> & Hearlier & Hlast & Htotal & ->).
      exists (x :: earlier), last, r. split_and!; [done| |done| |].
      * by apply (more_pages_cons _ _ _ resp); [done|lia|].
      * cbn [length]. lia.
      * cbn [mbind list_bind]. unfold x.
        rewrite (items_of_delivered _ _ resp) by done.
        by rewrite <- app_assoc.
    + destruct Hrun as [[Hnew ->]|(earlier & last & -> & Hearlier & Hlast)].
      * left. split; [|done].
        by apply (more_pages_cons _ _ _ resp); [done|lia|].
      * right. exists (x :: earlier), last. split_and!; [done| |done].
        by apply (more_pages_cons _ _ _ resp); [done|lia|].
    + destruct Hrun as [Hnew <-]. split; [|done].
      by apply (more_pages_cons _ _ _ resp); [done|lia|].
Qed.

(** X12.  Whatever totals the service reports from one response to the
    next: when a listing returns records, it asked for the pages 1, 2, ...
    in order, every response before the last reported a total above its
    page, the last one did not, and the records are the items of all the
    responses, in the order received. *)
Theorem GetAllRecords_received fuel collection opts w records :
  opt_Page (apply_opts opts default_list_options) ≤ 1 →
  (GetAllRecords fuel collection opts w).1 = Some (Ok records) →
  ∃ earlier last resp,
    wire (GetAllRecords fuel collection opts w).2
      = wire w ++ earlier ++ [last] ∧
    page_of <$> (earlier ++ [last])
      = (λ p, Some (Go.Itoa p)) <$> seqZ 1 (Z.of_nat (length earlier) + 1) ∧
    more_pages 1 earlier ∧
    page_answer last.2 = Ok resp ∧
    TotalPages resp ≤ 1 + Z.of_nat (length earlier) ∧
    records = (earlier ++ [last]) ≫= items_of.
Proof.
  intros Hpage. unfold GetAllRecords. fold default_list_options.
  rewrite bool_decide_eq_false_2 by lia.
  destruct (fetch_pages_trace collection fuel 1
              (apply_opts opts default_list_options) [] w)
    as (new & Hwire & Hpages & Hrun); [done|].
  intros Hok. rewrite Hok in Hrun.
  destruct Hrun as (earlier & last & resp & -> & Hearlier & Hlast & Htotal & ->).
  exists earlier, last, resp. split_and!; try done.
  rewrite Hpages, length_app. cbn. do 2 f_equal. lia.
Qed.

(** X13.  When a listing fails, the error is that of the last page asked
    for, or the URL of the next page could not be built; every page before
    was delivered, and nothing is asked for after the failure.  The items
    received so far are not returned. *)
Theorem GetAllRecords_failure fuel collection opts w e :
  opt_Page (apply_opts opts default_list_options) ≤ 1 →
  (GetAllRecords fuel collection opts w).1 = Some (Err e) →
  ∃ new,
    wire (GetAllRecords fuel collection opts w).2 = wire w ++ new ∧
    page_of <$> new
      = (λ p, Some (Go.Itoa p)) <$> seqZ 1 (Z.of_nat (length new)) ∧
    ((more_pages 1 new ∧ e = ErrWrap "failed to create request") ∨
     (∃ earlier last,
        new = earlier ++ [last] ∧ more_pages 1 earlier ∧
        page_answer last.2 = Err e)).
Proof.
  intros Hpage. unfold GetAllRecords. fold default_list_options.
  rewrite bool_decide_eq_false_2 by lia.
  destruct (fetch_pages_trace collection fuel 1
              (apply_opts opts default_list_options) [] w)
    as (new & Hwire & Hpages & Hrun); [done|].
  intros Herr. rewrite Herr in Hrun. by exists new.
Qed.

End IntTotals.

(** ** Beyond the claims: the multipart path *)

Lemma readable_or_failing files :
  Forall readable files ∨ Exists failing files.
Proof.
  induction files as [|file files [IH|IH]]; [by left| |].
  - destruct (Reader file) as [data|] eqn:Hr.
    + left. constructor; [|done]. unfold readable. by rewrite Hr.
    + right. by left.
  - right. by right.
Qed.

Lemma write_files_failing key files w :
  Exists failing files →
  for_range (write_file key) w files = Err (ErrWrap "failed to copy file data").
Proof.
  intros Hfiles. revert w.
  induction files as [|file files IH]; intros w; [by inversion Hfiles|].
  cbn [for_range]. destruct (Reader file) as [data|] eqn:Hr.
  - rewrite write_file_readable by (unfold readable; by rewrite Hr).
    apply IH. inversion Hfiles as [? ? Hhead|]; [|done].
    unfold failing in Hhead. congruence.
  - unfold write_file, CreateFormFile, io_Copy. by rewrite Hr.
Qed.

Lemma write_upload_failing w upload :
  Exists failing (Files upload) →
  write_upload w upload = Err (ErrWrap "failed to copy file data").
Proof.
  intros Hfiles. unfold write_upload.
  destruct (if bool_decide _ then _ else _) as [w'|e] eqn:Hdel.
  - by apply write_files_failing.
  - case_bool_decide; [|done]. by rewrite write_deletes in Hdel.
Qed.

Lemma write_uploads_failing uploads w :
  Exists (λ upload, Exists failing (Files upload)) uploads →
  write_uploads w uploads = Err (ErrWrap "failed to copy file data").
Proof.
  unfold write_uploads. intros Huploads. revert w.
  induction uploads as [|upload uploads IH]; intros w; [by inversion Huploads|].
  cbn [for_range].
  destruct (readable_or_failing (Files upload)) as [Hok|Hfail].
  - rewrite write_upload_parts by done. apply IH.
    inversion Huploads as [? ? Hhead|]; [|done].
    exfalso. clear -Hok Hhead. induction Hok as [|file files Hfile _ IHok].
    + by inversion Hhead.
    + inversion Hhead as [? ? Hf|]; [by destruct Hfile|by apply IHok].
  - by rewrite write_upload_failing.
Qed.

(** X14.  One file that cannot be read stops the whole upload before
    anything is sent: the encoder fails at the copy, the call returns an
    error of the client's own, and the world is as it was, with no request
    made. *)
Theorem failing_reader_aborts {T} `{!Unmarshal Body T}
    fileUploads method endpoint out w writer :
  Exists (λ upload, Exists failing (Files upload)) (Uploads fileUploads) →
  write_uploads writer (Uploads fileUploads)
    = Err (ErrWrap "failed to copy file data") ∧
  ∃ stage,
    doRequest (T := T) method endpoint (BodyFiles fileUploads) out w
      = (Err (ErrWrap stage), w) ∧
    (FormData fileUploads = None → stage = "failed to copy file data").
Proof.
  intros Hfail. split; [by apply write_uploads_failing|].
  cbn [doRequest]. rewrite doMultipartRequest_run.
  destruct (write_form fileUploads) as [parts|e] eqn:Hform.
  - exfalso. unfold write_form in Hform.
    destruct (match FormData fileUploads with Some d => _ | None => _ end);
      [|done].
    by rewrite write_uploads_failing in Hform.
  - destruct (write_form_error _ _ Hform) as [stage ->].
    exists stage. split; [done|]. intros Hnone.
    unfold write_form in Hform. rewrite Hnone in Hform.
    rewrite write_uploads_failing in Hform by done. congruence.
Qed.

Lemma write_scalar_fields data w :
  Forall (λ kv, is_Some (scalar_text kv.2)) data →
  for_range write_data_field w data
    = Ok (w ++ ((λ kv, FormField kv.1 (default "" (scalar_text kv.2))) <$> data)).
Proof.
  intros Hdata. revert w.
  induction Hdata as [|[key value] data [text Htext] _ IH]; intros w;
    cbn [for_range fmap list_fmap].
  - by rewrite app_nil_r.
  - cbn [snd] in Htext. unfold write_data_field at 1, WriteField.
    cbn [fst snd]. rewrite Htext. cbn [default from_option].
    destruct value; try done; cbn in Htext; injection Htext as <-;
      rewrite IH; by rewrite <- app_assoc.
Qed.

(** X15.  A form of strings, numbers and booleans never fails to encode:
    each entry becomes one field, in the order the map is walked, a string
    as it is (it is not quoted as JSON) and a number or boolean as [%v]
    prints it; the fields come before the parts of the uploads. *)
Theorem form_of_scalars data uploads query :
  Forall (λ kv, is_Some (scalar_text kv.2)) data →
  Forall (λ upload, Forall readable (Files upload)) uploads →
  write_form {| Uploads := uploads; FormData := Some data; FQuery := query |}
    = Ok (((λ kv, FormField kv.1 (default "" (scalar_text kv.2))) <$> data)
          ++ (uploads ≫= upload_parts)) ∧
  (∀ key text, scalar_text (AString text) = Some text ∧
     for_range write_data_field [] [(key, AString text)]
       = Ok [FormField key text]).
Proof.
  intros Hdata Huploads. split; [|done].
  unfold write_form. cbn [FormData Uploads].
  rewrite write_scalar_fields by done. cbn [app].
  by rewrite write_uploads_parts.
Qed.

(** X16.  Files made from bytes always encode, and what is uploaded is
    the bytes given, under the name given: one file part each, in order,
    under the field's key, or the key with [+] when appending. *)
Theorem bytes_files_upload field (files : list (string * string)) append writer :
  let upload :=
    {| Field := field;
       Files := (λ f, CreateFileDataFromBytes f.1 f.2) <$> files;
       Append := append; Delete := [] |} in
  write_uploads writer [upload]
    = Ok (writer ++ ((λ f, FormFile (if append then field +:+ "+" else field)
                             f.2 f.1) <$> files)) ∧
  Forall (λ file, ∃ data, Reader file = ReaderOf data ∧
                          Size file = Z.of_nat (String.length data))
    (Files upload).
Proof.
  intros upload. split.
  - rewrite write_uploads_parts.
    + cbn [mbind list_bind]. rewrite app_nil_r. unfold upload_parts.
      cbn [upload Field Files Append Delete fmap list_fmap app].
      f_equal. by rewrite <- list_fmap_compose.
    + constructor; [|done]. cbn [upload Files].
      apply Forall_fmap, Forall_true. by intros [data name].
  - cbn [upload Files]. apply Forall_fmap, Forall_true.
    intros [data name]. by exists data.
Qed.

(** X17.  The JSON path and the multipart path read a response alike: the
    same status, text and body give the same result on both, whatever was
    sent. *)
Theorem both_paths_answer_alike {T} `{!Unmarshal Body T}
    method endpoint body out w method' endpoint' fileUploads w'
    req req' code text payload :
  (∀ f, body ≠ BodyFiles f) →
  wire (doRequest (T := T) method endpoint body out w).2
    = wire w ++ [(req, DoResp code text payload)] →
  wire (doMultipartRequest (T := T) method' endpoint' fileUploads out w').2
    = wire w' ++ [(req', DoResp code text payload)] →
  (doRequest (T := T) method endpoint body out w).1
    = (doMultipartRequest (T := T) method' endpoint' fileUploads out w').1.
Proof.
  intros _ Hjson Hmulti.
  change (doMultipartRequest (T := T) method' endpoint' fileUploads out w')
    with (doRequest (T := T) method' endpoint' (BodyFiles fileUploads) out w')
    in *.
  destruct (doRequest_run (T := T) method endpoint body out w)
    as [[stage Hrun]|(r & stage & _ & Hrun)]; rewrite Hrun in Hjson |- *;
    cbn in Hjson; [by destruct (wire_not_extended _ _ Hjson)|].
  destruct (doRequest_run (T := T) method' endpoint' (BodyFiles fileUploads)
              out w')
    as [[stage' Hrun']|(r' & stage' & _ & Hrun')]; rewrite Hrun' in Hmulti |- *;
    cbn in Hmulti; [by destruct (wire_not_extended _ _ Hmulti)|].
  apply app_inv_head in Hjson, Hmulti.
  injection Hjson as _ ->. injection Hmulti as _ ->. done.
Qed.

(** ** Beyond the claims: the errors of the client's own *)

Lemma answer_own_error {T} `{!Unmarshal Body T} execute_stage out resp stage :
  answer (T := T) execute_stage out resp = Err (ErrWrap stage) →
  (resp = DoErr ∧ stage = execute_stage) ∨
  (∃ code text payload,
     resp = DoResp code text payload ∧ 200 ≤ code < 300 ∧ out = true ∧
     Decode (T := T) payload = None ∧ stage = "failed to decode response").
Proof.
  destruct resp as [|code text payload]; cbn.
  - intros [= <-]. by left.
  - destruct (decide (code < 200 ∨ 300 ≤ code)) as [Hcode|Hcode].
    + by rewrite (bool_decide_eq_true_2 (code < 200 ∨ 300 ≤ code)).
    + rewrite (bool_decide_eq_false_2 (code < 200 ∨ 300 ≤ code)) by done.
      destruct out; [|done].
      destruct (Decode payload) eqn:Hdec; [done|]. intros [= <-].
      right. exists code, text, payload. repeat split; try done; lia.
Qed.

(** X24.  An error that is not an [*APIError] has one of three origins.
    The request was never made: the body did not encode or the request
    could not be built, and the world is as before.  Or the transport
    failed on the one request sent: [failed to execute request], and
    [failed to execute multipart request] for an upload.  Or the one
    response was 2xx, a destination was given and the body did not
    decode. *)
Theorem own_errors {T} `{!Unmarshal Body T} method endpoint body out w stage :
  (doRequest (T := T) method endpoint body out w).1 = Err (ErrWrap stage) →
  ((doRequest (T := T) method endpoint body out w).2 = w ∧
   match body with
   | BodyFiles f =>
       write_form f = Err (ErrWrap stage) ∨
       stage = "failed to create multipart request"
   | _ =>
       (marshal_body body = None ∧ stage = "failed to marshal request body") ∨
       stage = "failed to create request"
   end) ∨
  (∃ req,
     wire (doRequest (T := T) method endpoint body out w).2
       = wire w ++ [(req, DoErr)] ∧
     stage = match body with
             | BodyFiles _ => "failed to execute multipart request"
             | _ => "failed to execute request"
             end) ∨
  (∃ req code text payload,
     wire (doRequest (T := T) method endpoint body out w).2
       = wire w ++ [(req, DoResp code text payload)] ∧
     200 ≤ code < 300 ∧ out = true ∧
     Decode (T := T) payload = None ∧ stage = "failed to decode response").
Proof.
  assert (Hsent : ∀ execute_stage req,
            answer (T := T) execute_stage out (serve (remote w) req).1
              = Err (ErrWrap stage) →
            (∃ req',
               wire (exchanged w req (serve (remote w) req).1
                       (serve (remote w) req).2)
                 = wire w ++ [(req', DoErr)] ∧ stage = execute_stage) ∨
            (∃ req' code text payload,
               wire (exchanged w req (serve (remote w) req).1
                       (serve (remote w) req).2)
                 = wire w ++ [(req', DoResp code text payload)] ∧
               200 ≤ code < 300 ∧ out = true ∧
               Decode (T := T) payload = None ∧
               stage = "failed to decode response")).
  { intros execute_stage req Hanswer.
    destruct (answer_own_error _ _ _ _ Hanswer)
      as [[Hresp ->]|(code & text & payload & Hresp & Hrest)].
    - left. exists req. by rewrite Hresp.
    - right. exists req, code, text, payload. by rewrite Hresp. }
  assert (Hjson : (∀ f, body ≠ BodyFiles f) →
            (doRequest (T := T) method endpoint body out w).1
              = Err (ErrWrap stage) →
            ((doRequest (T := T) method endpoint body out w).2 = w ∧
             ((marshal_body body = None ∧
               stage = "failed to marshal request body") ∨
              stage = "failed to create request")) ∨
            (∃ req,
               wire (doRequest (T := T) method endpoint body out w).2
                 = wire w ++ [(req, DoErr)] ∧
               stage = "failed to execute request") ∨
            (∃ req code text payload,
               wire (doRequest (T := T) method endpoint body out w).2
                 = wire w ++ [(req, DoResp code text payload)] ∧
               200 ≤ code < 300 ∧ out = true ∧
               Decode (T := T) payload = None ∧
               stage = "failed to decode response")).
  { intros Hbody. rewrite doRequest_json by done.
    destruct (marshal_body body) as [b|] eqn:Hb.
    - destruct (NewRequest_ok _ _).
      + cbn [fst snd]. intros Hanswer. right. by eapply Hsent.
      + cbn [fst snd]. intros [= <-]. left. split; [done|by right].
    - cbn [fst snd]. intros [= <-]. left. split; [done|by left]. }
  destruct body as [|v|f].
  - by apply Hjson.
  - by apply Hjson.
  - cbn [doRequest]. rewrite doMultipartRequest_run.
    destruct (write_form f) as [parts|e] eqn:Hform.
    + cbn zeta. destruct (NewRequest_ok _ _).
      * cbn [fst snd]. intros Hanswer. right. by eapply Hsent.
      * cbn [fst snd]. intros [= <-]. left. split; [done|by right].
    + cbn [fst snd]. intros [= ->]. left. split; [done|by left].
Qed.

(** ** Beyond the claims: the size of a file *)

Lemma write_files_resized size fieldName files w :
  for_range (write_file fieldName) w (resize size <$> files)
    = for_range (write_file fieldName) w files.
Proof.
  revert w. induction files as [|file files IH]; intros w; [done|].
  cbn [fmap list_fmap for_range]. cbn in IH.
  change (write_file fieldName w (resize size file))
    with (write_file fieldName w file).
  destruct (write_file fieldName w file); [apply IH|done].
Qed.

Lemma write_uploads_resized size uploads w :
  write_uploads w (resize_upload size <$> uploads) = write_uploads w uploads.
Proof.
  unfold write_uploads. revert w.
  induction uploads as [|upload uploads IH]; intros w; [done|].
  cbn [fmap list_fmap for_range]. cbn in IH.
  assert (Hone : write_upload w (resize_upload size upload)
                 = write_upload w upload).
  { unfold write_upload. cbn [Field Files Append Delete resize_upload].
    destruct (if bool_decide (Go.len (Delete upload) > 0) then _ else _);
      [apply write_files_resized|done]. }
  rewrite Hone. destruct (write_upload w upload); [apply IH|done].
Qed.

(** X23.  The encoder never reads [Size]: an upload whose files carry any
    other sizes runs exactly alike, request and result.  So a file made by
    [CreateFileData], whose [Size] is left 0, is uploaded like the file
    that [CreateFileDataFromBytes] makes of the same bytes. *)
Theorem Size_never_read {T} `{!Unmarshal Body T}
    method endpoint fileUploads out size w :
  doRequest (T := T) method endpoint
      (BodyFiles (resize_uploads size fileUploads)) out w
    = doRequest (T := T) method endpoint (BodyFiles fileUploads) out w ∧
  (∀ data filename,
     Size (CreateFileData (ReaderOf data) filename) = 0 ∧
     CreateFileData (ReaderOf data) filename
       = resize (λ _, 0) (CreateFileDataFromBytes data filename)).
Proof.
  split; [|done].
  unfold doRequest, doMultipartRequest.
  assert (Hform : write_form (resize_uploads size fileUploads)
                  = write_form fileUploads).
  { unfold write_form. cbn [FormData Uploads resize_uploads].
    destruct (match FormData fileUploads with Some _ => _ | None => _ end);
      [apply write_uploads_resized|done]. }
  by rewrite Hform.
Qed.

(** ** Beyond the claims: the bundle of an upload *)

Lemma default_last_cons {A} (a d : A) l :
  default a (last (d :: l)) = default d (last l).
Proof. rewrite last_cons. by destruct (last l). Qed.

Lemma bundle_of_calls calls options :
  let bundle := apply_opts (option_of <$> calls) options in
  Uploads bundle = Uploads options ++ omap upload_by calls ∧
  FormData bundle = default (FormData options) (last (omap form_by calls)) ∧
  FQuery bundle = FQuery options.
Proof.
  revert options. unfold apply_opts.
  induction calls as [|c calls IH]; intros options; cbn.
  - by rewrite app_nil_r.
  - destruct (IH (option_of c options)) as (-> & -> & ->).
    destruct c as [field files mods|data]; cbn.
    + by rewrite <- app_assoc.
    + by rewrite default_last_cons.
Qed.

(** X22.  The bundle of an upload, built from the options of the package:
    every [WithFileUpload] adds its directive, in the order of the calls,
    while [WithFormData] replaces the form, so that the last one decides
    and no form is sent without one.  None of them sets [expand] or
    [fields]: the request of such an upload has no query. *)
Theorem packaged_uploads collection recordID calls w :
  let fileUploads := option_of <$> calls in
  let bundle := apply_opts fileUploads no_uploads in
  Uploads bundle = omap upload_by calls ∧
  FormData bundle = default None (last (omap form_by calls)) ∧
  (∃ new,
     wire (CreateRecordWithFiles collection fileUploads w).2 = wire w ++ new ∧
     Forall (λ x, queries (URL x.1) = [] ∧
                  ∃ parts, write_form bundle = Ok parts ∧
                           ReqBody x.1 = Multipart parts) new) ∧
  (∃ new,
     wire (UpdateRecordWithFiles collection recordID fileUploads w).2
       = wire w ++ new ∧
     Forall (λ x, queries (URL x.1) = [] ∧
                  ∃ parts, write_form bundle = Ok parts ∧
                           ReqBody x.1 = Multipart parts) new).
Proof.
  intros fileUploads bundle.
  destruct (bundle_of_calls calls no_uploads) as (Hup & Hform & Hquery).
  fold fileUploads in Hup, Hform, Hquery. fold bundle in Hup, Hform, Hquery.
  assert (Hshape : ∀ method p x,
            upload_request (client w) method p bundle x →
            queries (URL x) = [] ∧
            ∃ parts, write_form bundle = Ok parts ∧ ReqBody x = Multipart parts).
  { intros method p x (_ & _ & _ & _ & Hnone & Hparts). split; [|done].
    apply Hnone. by rewrite Hquery. }
  split_and!; [done|done| |].
  - unfold CreateRecordWithFiles. rewrite bind_ret_world.
    destruct (upload_operation (T := Record) "POST"
                ("/api/collections/" +:+ collection +:+ "/records")
                bundle true w) as (new & Hwire & _ & Hnew).
    exists new. split; [exact Hwire|].
    eapply Forall_impl; [exact Hnew|]. intros x Hx. exact (Hshape _ _ _ Hx).
  - unfold UpdateRecordWithFiles. rewrite bind_ret_world.
    destruct (upload_operation (T := Record) "PATCH"
                ("/api/collections/" +:+ collection +:+ "/records/"
                   +:+ recordID)
                bundle true w) as (new & Hwire & _ & Hnew).
    exists new. split; [exact Hwire|].
    eapply Forall_impl; [exact Hnew|]. intros x Hx. exact (Hshape _ _ _ Hx).
Qed.

End Transport.

(** ** Beyond the claims: construction *)

Lemma string_app_cons a s t : String a s +:+ t = String a (s +:+ t).
Proof. done. Qed.

Lemma string_length_app s t :
  String.length (s +:+ t) = (String.length s + String.length t)%nat.
Proof.
  induction s as [|a s IH]; [done|]. rewrite string_app_cons. cbn.
  by rewrite IH.
Qed.

Lemma substring_all s : String.substring 0 (String.length s) s = s.
Proof. induction s as [|a s IH]; [done|]. cbn. by rewrite IH. Qed.

Lemma substring_app_l s t : String.substring 0 (String.length s) (s +:+ t) = s.
Proof.
  induction s as [|a s IH]; [by destruct t|]. rewrite string_app_cons. cbn.
  by rewrite IH.
Qed.

Lemma substring_app_r s t :
  String.substring (String.length s) (String.length t) (s +:+ t) = t.
Proof.
  induction s as [|a s IH]; [apply substring_all|]. rewrite string_app_cons.
  cbn. apply IH.
Qed.

Lemma substring_split n s :
  (n ≤ String.length s)%nat →
  String.substring 0 n s +:+ String.substring n (String.length s - n) s = s.
Proof.
  revert n. induction s as [|a s IH]; intros [|n] Hn; cbn in *; try lia.
  - done.
  - by rewrite substring_all.
  - rewrite string_app_cons. f_equal. apply IH. lia.
Qed.

Lemma HasSuffix_app stem suffix :
  Strings.HasSuffix (stem +:+ suffix) suffix = true.
Proof.
  unfold Strings.HasSuffix. rewrite string_length_app.
  replace (String.length stem + String.length suffix - String.length suffix)%nat
    with (String.length stem) by lia.
  rewrite substring_app_r. rewrite !bool_decide_eq_true_2; [done|done|lia].
Qed.

Lemma TrimSuffix_app stem suffix :
  Strings.TrimSuffix (stem +:+ suffix) suffix = stem.
Proof.
  unfold Strings.TrimSuffix. rewrite HasSuffix_app, string_length_app.
  replace (String.length stem + String.length suffix - String.length suffix)%nat
    with (String.length stem) by lia.
  apply substring_app_l.
Qed.

Lemma HasSuffix_inv s suffix :
  Strings.HasSuffix s suffix = true →
  s = Strings.TrimSuffix s suffix +:+ suffix.
Proof.
  intros H. unfold Strings.TrimSuffix. rewrite H.
  unfold Strings.HasSuffix in H. apply andb_true_iff in H as [Hlen Hsub].
  apply bool_decide_eq_true in Hlen, Hsub.
  set (n := (String.length s - String.length suffix)%nat) in *.
  transitivity
    (String.substring 0 n s +:+ String.substring n (String.length s - n) s).
  - symmetry. apply substring_split. lia.
  - f_equal.
    replace (String.length s - n)%nat with (String.length suffix) by lia.
    done.
Qed.

Lemma provided_keep_url opts c :
  Forall provided opts →
  BaseURL (built (apply_opts opts c)) = BaseURL (built c) ∧
  token (built (apply_opts opts c)) = token (built c).
Proof.
  intros Hopts. revert c.
  induction Hopts as [|o opts Ho _ IH]; intros c; [done|].
  change (apply_opts (o :: opts) c) with (apply_opts opts (o c)).
  destruct (IH (o c)) as [-> ->]. by destruct Ho.
Qed.

Lemma transport_options_keep_agent opts c :
  Forall provided opts →
  Forall (λ o, ∀ ua, o ≠ WithUserAgent ua) opts →
  userAgent (built (apply_opts opts c)) = userAgent (built c).
Proof.
  intros Hopts. revert c.
  induction Hopts as [|o opts Ho _ IH]; intros c Hno; [done|].
  change (apply_opts (o :: opts) c) with (apply_opts opts (o c)).
  inversion Hno as [|? ? Hhead Htail]; subst. rewrite IH by done.
  destruct Ho as [h|t|ua]; [done|done|]. by destruct (Hhead ua).
Qed.

(** X18.  [NewClient] removes one trailing slash from the base URL and no
    more: a URL [stem/] is kept as [stem], even when [stem] ends in a
    slash itself, and a URL without a trailing slash is kept as it is.  The
    provided options do not touch it, and the client starts without a
    token. *)
Theorem NewClient_BaseURL baseURL opts :
  Forall provided opts →
  token (built (NewClient baseURL opts)) = "" ∧
  (∀ stem, baseURL = stem +:+ "/" →
     BaseURL (built (NewClient baseURL opts)) = stem) ∧
  ((∀ stem, baseURL ≠ stem +:+ "/") →
     BaseURL (built (NewClient baseURL opts)) = baseURL) ∧
  (BaseURL (built (NewClient baseURL opts)) = baseURL ∨
   BaseURL (built (NewClient baseURL opts)) +:+ "/" = baseURL).
Proof.
  intros Hopts. unfold NewClient.
  match goal with |- context [apply_opts opts ?c] =>
    destruct (provided_keep_url opts c Hopts) as [-> ->] end.
  cbn [built BaseURL token]. split_and!; [done| | |].
  - intros stem ->. apply TrimSuffix_app.
  - intros Hno. destruct (Strings.HasSuffix baseURL "/") eqn:Hs.
    + by destruct (Hno _ (HasSuffix_inv _ _ Hs)).
    + unfold Strings.TrimSuffix. by rewrite Hs.
  - destruct (Strings.HasSuffix baseURL "/") eqn:Hs.
    + right. symmetry. by apply HasSuffix_inv.
    + left. unfold Strings.TrimSuffix. by rewrite Hs.
Qed.

(** X19.  The user agent is [pocketbase-go/1.0] until [WithUserAgent] sets
    it; the last [WithUserAgent] decides, whatever transport options come
    after it.  [WithTimeout] installs a client of the package's own with
    that timeout, so that a client handed over by an earlier
    [WithHTTPClient] is dropped. *)
Theorem NewClient_options baseURL before ua after :
  Forall provided after →
  Forall (λ o, ∀ ua', o ≠ WithUserAgent ua') after →
  userAgent (built (NewClient baseURL after)) = "pocketbase-go/1.0" ∧
  userAgent (built (NewClient baseURL (before ++ [WithUserAgent ua] ++ after)))
    = ua ∧
  (∀ opts timeout,
     HTTPClient (NewClient baseURL (opts ++ [WithTimeout timeout]))
       = OwnClient timeout) ∧
  (∀ opts handle,
     HTTPClient (NewClient baseURL (opts ++ [WithHTTPClient handle])) = handle) ∧
  HTTPClient (NewClient baseURL []) = OwnClient 0.
Proof.
  intros Hafter Hno. unfold NewClient.
  assert (Happ : ∀ (a b : list Option) c,
            apply_opts (a ++ b) c = apply_opts b (apply_opts a c))
    by (intros; apply foldl_app).
  split_and!.
  - by rewrite transport_options_keep_agent.
  - rewrite !Happ. by rewrite transport_options_keep_agent.
  - intros opts timeout. by rewrite Happ.
  - intros opts handle. by rewrite Happ.
  - done.
Qed.

(** ** Beyond the claims: the modifiers of an upload *)

Lemma modifiers_fold mods upload :
  let u := foldl (λ u option, option u) upload (modifier_of <$> mods) in
  Field u = Field upload ∧ Files u = Files upload ∧
  Append u = Append upload || bool_decide (CallAppend ∈ mods) ∧
  Delete u = default (Delete upload) (last (omap deleted_by mods)).
Proof.
  revert upload. induction mods as [|m mods IH]; intros upload; cbn.
  - by rewrite orb_false_r.
  - destruct (IH (modifier_of m upload)) as (-> & -> & -> & ->).
    destruct m as [|names]; cbn.
    + rewrite (bool_decide_eq_true_2 (CallAppend ∈ CallAppend :: mods))
        by (apply elem_of_cons; by left).
      by rewrite orb_true_r.
    + rewrite default_last_cons. split_and!; [done|done| |done].
      f_equal. apply bool_decide_ext. rewrite elem_of_cons. intuition discriminate.
Qed.

(** X21.  The directive of [WithFileUpload field files modifiers], for the
    modifiers of the package: the field and the files are the ones given,
    it appends exactly when [WithAppend] is among the modifiers, wherever
    it stands, and it deletes the names of the last [WithDelete], none
    without one.  The order of the modifiers does not reach the encoding:
    with readable files the fields [<field>-] come first, then the
    files. *)
Theorem upload_modifiers field files mods writer :
  let u := directive (field, files, modifier_of <$> mods) in
  let names := default [] (last (omap deleted_by mods)) in
  let appending := bool_decide (CallAppend ∈ mods) in
  u = {| Field := field; Files := files; Append := appending;
         Delete := names |} ∧
  upload_by (CallFileUpload field files mods) = Some u ∧
  (Forall readable files →
   write_upload writer u
     = Ok (writer ++ (FormField (field +:+ "-") <$> names)
             ++ ((λ file, FormFile (if appending then field +:+ "+" else field)
                            (Filename file)
                            (match Reader file with
                             | ReaderOf data => data
                             | ReaderFailing => ""
                             end)) <$> files))).
Proof.
  intros u names appending.
  destruct (modifiers_fold mods
              {| Field := field; Files := files; Append := false; Delete := [] |})
    as (Hfield & Hfiles & Happend & Hdelete).
  cbn in Hfield, Hfiles, Happend, Hdelete.
  assert (Hu : u = {| Field := field; Files := files; Append := appending;
                      Delete := names |}).
  { unfold u, directive. cbn [fst snd].
    destruct (foldl _ _ _) as [f fs a d]. cbn in *. by subst. }
  split_and!; [done|done|].
  intros Hfiles'. rewrite write_upload_parts by (by rewrite Hu).
  by rewrite Hu.
Qed.

Lemma upload_modifiers_witness :
  Forall readable [CreateFileDataFromBytes "png" "a.png"] ∧
  write_upload []
    (directive ("avatar", [CreateFileDataFromBytes "png" "a.png"],
                [WithDelete ["old.png"]; WithAppend; WithDelete ["b.png"]]))
    = Ok [FormField "avatar-" "b.png"; FormFile "avatar+" "a.png" "png"].
Proof.
  assert (H : Forall readable [CreateFileDataFromBytes "png" "a.png"])
    by (by repeat constructor).
  split; [exact H|].
  exact (proj2 (proj2 (upload_modifiers "avatar"
                         [CreateFileDataFromBytes "png" "a.png"]
                         [CallDelete ["old.png"]; CallAppend; CallDelete ["b.png"]]
                         [])) H).
Defined.

(** ** The client against the test double *)

Abbreviation mock_GetAllRecords serve :=
  (GetAllRecords Mock.marshal Mock.sprint Mock.any_request "x" serve).
Abbreviation mock_doRequest serve T :=
  (doRequest Mock.marshal Mock.sprint Mock.any_request "x" serve (T := T)).
Abbreviation mock_Authenticate :=
  (AuthenticateWithPassword Mock.marshal Mock.sprint Mock.any_request "x"
     Mock.login).
Abbreviation mock_Impersonate :=
  (Impersonate Mock.marshal Mock.sprint Mock.any_request "x" Mock.impersonator).

Lemma paged_reports N s req :
  ∃ code text payload page,
    (Mock.paged N s req).1 = DoResp code text payload ∧ 200 ≤ code < 300 ∧
    Decode (T := listResp) payload = Some page ∧ TotalPages page = N.
Proof.
  unfold Mock.paged. cbn [fst]. destruct (bool_decide (N ≤ 0)).
  all: eexists 200, "200 OK", _, _; split_and!; [reflexivity|lia|lia| |];
    vm_compute; reflexivity.
Defined.

(** [TestClient_GetAllRecords_MultiplePages], with three pages. *)
Example three_pages :
  let run := mock_GetAllRecords (Mock.paged 3) 5 "posts" [] Mock.fresh in
  run.1 = Some (Ok [Mock.record "1"; Mock.record "2"; Mock.record "3"]) ∧
  page_of <$> wire run.2 = [Some "1"; Some "2"; Some "3"] ∧
  query_param "perPage" <$> (wire run.2).*1 = [Some "30"; Some "30"; Some "30"].
Proof. vm_compute. done. Qed.




(** Page 2 of 5 is asked for: one request, one record, no second page. *)
Example second_page_only :
  let run := mock_GetAllRecords (Mock.paged 5) 0 "posts" [WithPage 2] Mock.fresh in
  run.1 = Some (Ok [Mock.record "2"]) ∧ page_of <$> wire run.2 = [Some "2"].
Proof. vm_compute. done. Qed.

Lemma explicit_page_single_request_witness :
  let options := apply_opts [WithPage 2] default_list_options in
  let req := page_request (client Mock.fresh) "posts" options (opt_Page options) in
  let resp := (Mock.paged 5 (remote Mock.fresh) req).1 in
  opt_Page options > 1 ∧
  Mock.any_request "GET" (URL req) = true ∧
  ∃ outcome,
    mock_GetAllRecords (Mock.paged 5) 0 "posts" [WithPage 2] Mock.fresh =
      (Some outcome,
       exchanged Mock.fresh req resp (Mock.paged 5 (remote Mock.fresh) req).2) ∧
    query_param "page" req = Some (Go.Itoa (opt_Page options)) ∧
    match resp with
    | DoErr => outcome = Err (ErrWrap "failed to execute request")
    | DoResp code text payload =>
        if bool_decide (200 ≤ code < 300) then
          match Decode (T := listResp) payload with
          | Some page => outcome = Ok (Items page)
          | None => outcome = Err (ErrWrap "failed to decode response")
          end
        else outcome = Err (ErrAPI (api_error_of code text payload))
    end.
Proof.
  intros options req resp.
  assert (H1 : opt_Page options > 1) by (simpl; lia).
  assert (H2 : Mock.any_request "GET" (URL req) = true) by reflexivity.
  split_and!; [exact H1|exact H2|].
  exact (explicit_page_single_request Mock.marshal Mock.sprint Mock.any_request
           "x" (Mock.paged 5) 0 "posts" [WithPage 2] Mock.fresh H1 H2).
Defined.

(** [TestClient_doRequest_InvalidJSON]: a 500 whose body is not JSON. *)
Example broken_service :
  (mock_doRequest Mock.broken Record "GET"
     {| path := "/api/collections/posts/records/test-id"; queries := [] |}
     BodyNil true Mock.fresh).1
  = Err (ErrAPI {| Status := 500; Message := "500 Internal Server Error";
                   Data := None |}).
Proof. reflexivity. Qed.

Lemma non_2xx_is_APIError_witness :
  let endpoint :=
    {| path := "/api/collections/posts/records/test-id"; queries := [] |} in
  let req := json_request (client Mock.fresh) "GET" endpoint "" in
  wire (mock_doRequest Mock.broken Record "GET" endpoint BodyNil true
          Mock.fresh).2
    = wire Mock.fresh ++ [(req, DoResp 500 "500 Internal Server Error" Mock.NotJSON)] ∧
  (500 < 200 ∨ 300 ≤ 500) ∧
  ∃ e : APIError,
    (mock_doRequest Mock.broken Record "GET" endpoint BodyNil true
       Mock.fresh).1 = Err (ErrAPI e) ∧
    match Decode (T := apiErrorResp) Mock.NotJSON with
    | Some reported =>
        Status e = err_Status reported ∧ Message e = err_Message reported ∧
        Data e = err_Data reported
    | None =>
        Status e = 500 ∧ Message e = "500 Internal Server Error" ∧ Data e = None
    end.
Proof.
  intros endpoint req.
  assert (H1 : wire (mock_doRequest Mock.broken Record "GET" endpoint
                       BodyNil true Mock.fresh).2
               = wire Mock.fresh
                 ++ [(req, DoResp 500 "500 Internal Server Error" Mock.NotJSON)])
    by reflexivity.
  assert (H2 : 500 < 200 ∨ 300 ≤ 500) by (right; lia).
  split_and!; [exact H1|exact H2|].
  exact (non_2xx_is_APIError Mock.marshal Mock.sprint Mock.any_request "x"
           Mock.broken "GET" endpoint BodyNil true Mock.fresh req 500
           "500 Internal Server Error" Mock.NotJSON H1 H2).
Defined.

(** A 502 whose body is the empty JSON object.  The object has none of
    the members of an error payload, and still it decodes: the error that
    comes back has the zero status and the empty message, not the code and
    text of the HTTP status line, nor anything the service sent. *)
Lemma empty_object_counterexample :
  let endpoint :=
    {| path := "/api/collections/posts/records/test-id"; queries := [] |} in
  let run := mock_doRequest Mock.gateway Record "GET" endpoint BodyNil true
               Mock.fresh in
  (wire run.2).*2 = [DoResp 502 "502 Bad Gateway" (Mock.JSON (AMap ∅))] ∧
  (502 < 200 ∨ 300 ≤ 502) ∧
  ((∅ : gmap string any) !! "status" = None ∧
   (∅ : gmap string any) !! "message" = None ∧
   (∅ : gmap string any) !! "data" = None) ∧
  run.1 = Err (ErrAPI {| Status := 0; Message := ""; Data := None |}) ∧
  ¬ ∃ e, run.1 = Err (ErrAPI e) ∧ Status e = 502 ∧ Message e = "502 Bad Gateway".
Proof.
  split_and!; [reflexivity|right; lia|done|done|done|reflexivity|].
  intros (e & He & Hstatus & _). vm_compute in He.
  injection He as <-. discriminate Hstatus.
Qed.

(** A well-formed error payload is passed on as it is. *)
Example wrong_password :
  let run := mock_Authenticate "users" "ann" "guess" (Mock.with_token "old") in
  run.1 = Err (ErrAPI {| Status := 400; Message := "Failed to authenticate.";
                         Data := Some ∅ |}) ∧
  token (client run.2) = "old".
Proof. vm_compute. done. Qed.

(** [TestClient_AuthenticateWithPassword_Success] *)
Example right_password :
  let run := mock_Authenticate "users" "ann" "secret" (Mock.with_token "old") in
  run.1 = Ok (Mock.record "ann") ∧ token (client run.2) = "tok-0".
Proof. vm_compute. done. Qed.

(** The bytes that leave for a duration of 3600 and for none. *)
Example impersonate_for_an_hour :
  (λ x, ReqBody x.1) <$> wire (mock_Impersonate "users" "bob" 3600 [] Mock.fresh).2
  = [Bytes ("{" +:+ Mock.quote +:+ "duration" +:+ Mock.quote +:+ ":3600}")].
Proof. vm_compute. done. Qed.

Example impersonate_by_default :
  (λ x, ReqBody x.1) <$> wire (mock_Impersonate "users" "bob" 0 [] Mock.fresh).2
    = [Bytes ""] ∧
  (λ x, ReqBody x.1) <$> wire (mock_Impersonate "users" "bob" (-5) [] Mock.fresh).2
    = [Bytes ""].
Proof. vm_compute. done. Qed.

Lemma Impersonate_duration_witness :
  let b := "{" +:+ Mock.quote +:+ "duration" +:+ Mock.quote +:+ ":3600}" in
  let endpoint :=
    {| path := "/api/collections/users/impersonate/bob"; queries := [] |} in
  Mock.marshal (AMap {[ "duration" := AInt 3600 ]}) = Some b ∧
  Mock.any_request "POST" (prefix_url (BaseURL (client Mock.fresh)) endpoint)
    = true ∧
  ∃ req resp,
    wire (mock_Impersonate "users" "bob" 3600 [] Mock.fresh).2
      = wire Mock.fresh ++ [(req, resp)] ∧
    Method req = "POST" ∧ ReqBody req = Bytes b.
Proof.
  intros b endpoint.
  assert (Hb : Mock.marshal (AMap {[ "duration" := AInt 3600 ]}) = Some b)
    by (vm_compute; reflexivity).
  assert (Hok : Mock.any_request "POST"
                  (prefix_url (BaseURL (client Mock.fresh)) endpoint) = true)
    by reflexivity.
  refine (conj Hb (conj Hok _)).
  exact (proj2 (proj2 (proj2 (proj2 (proj2
           (Impersonate_duration Mock.marshal Mock.sprint Mock.any_request "x"
              Mock.impersonator "users" "bob" 3600 [] Mock.fresh)))))
           b Hb Hok).
Defined.

Lemma uploads_encoding_witness :
  let uploads :=
    [ WithFileUpload "avatar" [] [WithDelete ["a.png"; "b.png"]]
        (mkFileUploadOptions [] None (mkQueryOptions [] [])) ;
      WithFileUpload "files" [mkFileData (ReaderOf "%PDF") "c.pdf" 4] [WithAppend]
        (mkFileUploadOptions [] None (mkQueryOptions [] [])) ] ≫= Uploads in
  Forall (λ upload, Forall readable (Files upload)) uploads ∧
  write_uploads [] uploads
    = Ok [FormField "avatar-" "a.png"; FormField "avatar-" "b.png";
          FormFile "files+" "c.pdf" "%PDF"].
Proof.
  intros uploads.
  assert (H : Forall (λ upload, Forall readable (Files upload)) uploads)
    by (repeat constructor; discriminate).
  split; [exact H|].
  exact (proj1 (uploads_encoding (Body := Mock.body) (T := Record) Mock.marshal
                  Mock.sprint Mock.any_request "x" Mock.store uploads [] H)).
Defined.

(** The same bundle on its way to the service, after one form field. *)
Example create_with_files :
  let run :=
    CreateRecordWithFiles Mock.marshal Mock.sprint Mock.any_request "x"
      Mock.store "documents"
      [ WithFormData (Some [("title", AString "Report")]);
        WithFileUpload "avatar" [] [WithDelete ["a.png"; "b.png"]];
        WithFileUpload "files" [mkFileData (ReaderOf "%PDF") "c.pdf" 4]
          [WithAppend] ] Mock.fresh in
  run.1 = Ok (Mock.record "new") ∧
  (λ x, ReqBody x.1) <$> wire run.2
    = [Multipart [FormField "title" "Report";
                  FormField "avatar-" "a.png"; FormField "avatar-" "b.png";
                  FormFile "files+" "c.pdf" "%PDF"]].
Proof. vm_compute. done. Qed.

(** ** Beyond the claims, against the test double *)

Abbreviation mock_doMultipartRequest serve T :=
  (doMultipartRequest Mock.marshal Mock.sprint Mock.any_request "x" serve
     (T := T)).

Lemma APIError_only_from_response_witness :
  let endpoint :=
    {| path := "/api/collections/posts/records/test-id"; queries := [] |} in
  let run := mock_doRequest Mock.broken Record "GET" endpoint BodyNil true
               Mock.fresh in
  let e := {| Status := 500; Message := "500 Internal Server Error";
              Data := None |} in
  run.1 = Err (ErrAPI e) ∧
  ∃ req code text payload,
    wire run.2 = wire Mock.fresh ++ [(req, DoResp code text payload)] ∧
    (code < 200 ∨ 300 ≤ code) ∧
    e = api_error_of code text payload.
Proof.
  intros endpoint run e.
  assert (H : run.1 = Err (ErrAPI e)) by reflexivity.
  split; [exact H|].
  exact (APIError_only_from_response Mock.marshal Mock.sprint Mock.any_request
           "x" Mock.broken "GET" endpoint BodyNil true Mock.fresh e H).
Defined.

Lemma own_errors_witness :
  let endpoint :=
    {| path := "/api/collections/posts/records/test-id"; queries := [] |} in
  let run := mock_doRequest Mock.down Record "GET" endpoint BodyNil true
               Mock.fresh in
  run.1 = Err (ErrWrap "failed to execute request") ∧
  ((run.2 = Mock.fresh ∧
    ((marshal_body Mock.marshal BodyNil = None ∧
      "failed to execute request" = "failed to marshal request body") ∨
     "failed to execute request" = "failed to create request")) ∨
   (∃ req, wire run.2 = wire Mock.fresh ++ [(req, DoErr)] ∧
           "failed to execute request" = "failed to execute request") ∨
   (∃ req code text payload,
      wire run.2 = wire Mock.fresh ++ [(req, DoResp code text payload)] ∧
      200 ≤ code < 300 ∧ true = true ∧
      Decode (T := Record) payload = None ∧
      "failed to execute request" = "failed to decode response")).
Proof.
  intros endpoint run.
  assert (H : run.1 = Err (ErrWrap "failed to execute request"))
    by reflexivity.
  split; [exact H|].
  exact (own_errors Mock.marshal Mock.sprint Mock.any_request "x" Mock.down
           "GET" endpoint BodyNil true Mock.fresh
           "failed to execute request" H).
Defined.

Lemma response_2xx_witness :
  let endpoint :=
    {| path := "/api/collections/posts/records/new"; queries := [] |} in
  let run := mock_doRequest Mock.store Record "GET" endpoint BodyNil true
               Mock.fresh in
  let req := json_request (client Mock.fresh) "GET" endpoint "" in
  let payload := Mock.JSON (Mock.record_json "new") in
  wire run.2 = wire Mock.fresh ++ [(req, DoResp 200 "200 OK" payload)] ∧
  200 ≤ 200 < 300 ∧
  run.1 = match Decode (T := Record) payload with
          | Some v => Ok (Some v)
          | None => Err (ErrWrap "failed to decode response")
          end.
Proof.
  intros endpoint run req payload.
  assert (H1 : wire run.2
               = wire Mock.fresh ++ [(req, DoResp 200 "200 OK" payload)])
    by reflexivity.
  assert (H2 : 200 ≤ 200 < 300) by lia.
  refine (conj H1 (conj H2 _)).
  exact (response_2xx Mock.marshal Mock.sprint Mock.any_request "x" Mock.store
           "GET" endpoint BodyNil true Mock.fresh req 200 "200 OK" payload
           H1 H2).
Defined.

Lemma doRequest_value_witness :
  let endpoint :=
    {| path := "/api/collections/posts/records/new"; queries := [] |} in
  let run := mock_doRequest Mock.store Record "GET" endpoint BodyNil true
               Mock.fresh in
  let v := Some (Mock.record "new") in
  run.1 = Ok v ∧
  ∃ req code text payload,
    wire run.2 = wire Mock.fresh ++ [(req, DoResp code text payload)] ∧
    200 ≤ code < 300 ∧
    request_of Mock.marshal Mock.sprint "x" (client Mock.fresh) "GET" endpoint
      BodyNil req ∧
    v = Decode (T := Record) payload ∧
    (true = true → is_Some v).
Proof.
  intros endpoint run v.
  assert (H : run.1 = Ok v) by reflexivity.
  split; [exact H|].
  exact (doRequest_value Mock.marshal Mock.sprint Mock.any_request "x"
           Mock.store "GET" endpoint BodyNil true Mock.fresh v H).
Defined.

Lemma Impersonate_result_witness :
  let run := mock_Impersonate "users" "bob" 3600 [] (Mock.with_token "admin") in
  let result := {| res_Token := "imp"; res_Record := Mock.record "bob" |} in
  run.1 = Ok result ∧
  ∃ req code text payload resp,
    wire run.2
      = wire (Mock.with_token "admin") ++ [(req, DoResp code text payload)] ∧
    200 ≤ code < 300 ∧
    Decode (T := impersonateResp) payload = Some resp ∧
    result = {| res_Token := imp_Token resp; res_Record := imp_Record resp |} ∧
    token (client run.2) = token (client (Mock.with_token "admin")).
Proof.
  intros run result.
  assert (H : run.1 = Ok result) by (vm_compute; reflexivity).
  split; [exact H|].
  exact (Impersonate_result Mock.marshal Mock.sprint Mock.any_request "x"
           Mock.impersonator "users" "bob" 3600 [] (Mock.with_token "admin")
           result H).
Defined.

Lemma authenticated_requests_witness :
  let auth := mock_Authenticate "users" "ann" "secret" Mock.fresh in
  let endpoint :=
    {| path := "/api/collections/posts/records/new"; queries := [] |} in
  auth.1 = Ok (Mock.record "ann") ∧
  ∃ req code text payload resp new,
    wire auth.2 = wire Mock.fresh ++ [(req, DoResp code text payload)] ∧
    Decode (T := authResp) payload = Some resp ∧
    wire (mock_doRequest Mock.login Record "GET" endpoint BodyNil true auth.2).2
      = wire auth.2 ++ new ∧
    Forall (λ x, Headers x.1 !! "Authorization" =
                   if bool_decide (auth_Token resp = "") then None
                   else Some (auth_Token resp)) new.
Proof.
  intros auth endpoint.
  assert (H : auth.1 = Ok (Mock.record "ann")) by (vm_compute; reflexivity).
  split; [exact H|].
  exact (authenticated_requests Mock.marshal Mock.sprint Mock.any_request "x"
           Mock.login (T := Record) "users" "ann" "secret" Mock.fresh
           (Mock.record "ann") "GET" endpoint BodyNil true H).
Defined.

(** After logging in, the token of the response is what goes out. *)
Example token_goes_out :
  let auth := mock_Authenticate "users" "ann" "secret" Mock.fresh in
  let endpoint :=
    {| path := "/api/collections/posts/records/new"; queries := [] |} in
  (λ x, Headers x.1 !! "Authorization") <$>
    wire (mock_doRequest Mock.login Record "GET" endpoint BodyNil true auth.2).2
  = [None; Some "tok-0"].
Proof. vm_compute. done. Qed.

Lemma requested_page_below_two_witness :
  0 ≤ 1 ∧
  mock_GetAllRecords (Mock.paged 2) 5 "posts" ([WithSort "title"] ++ [WithPage 0])
    Mock.fresh
  = mock_GetAllRecords (Mock.paged 2) 5 "posts" ([WithSort "title"] ++ [WithPage 1])
      Mock.fresh.
Proof.
  assert (H : 0 ≤ 1) by lia.
  split; [exact H|].
  exact (requested_page_below_two Mock.marshal Mock.sprint Mock.any_request "x"
           (Mock.paged 2) 5 "posts" [WithSort "title"] 0 Mock.fresh H).
Defined.

Lemma paged_total_is_int N s req code text payload resp :
  N ≤ Go.int_max →
  (Mock.paged N s req).1 = DoResp code text payload →
  Decode (T := listResp) payload = Some resp →
  TotalPages resp ≤ Go.int_max.
Proof.
  intros HN Hresp Hdec.
  destruct (paged_reports N s req) as (c & t & p & r & Hp & _ & Hr & <-).
  rewrite Hp in Hresp. injection Hresp as <- <- <-.
  rewrite Hr in Hdec. by injection Hdec as <-.
Defined.

Lemma flaky_total_is_int s req code text payload resp :
  (Mock.flaky s req).1 = DoResp code text payload →
  Decode (T := listResp) payload = Some resp →
  TotalPages resp ≤ Go.int_max.
Proof.
  unfold Mock.flaky. destruct (bool_decide _).
  - apply paged_total_is_int. vm_compute. discriminate.
  - cbn. intros [= <- <- <-]. discriminate.
Defined.

Lemma GetAllRecords_received_witness :
  let run := mock_GetAllRecords (Mock.paged 3) 5 "posts" [] Mock.fresh in
  let records := [Mock.record "1"; Mock.record "2"; Mock.record "3"] in
  (∀ s req code text payload resp,
     (Mock.paged 3 s req).1 = DoResp code text payload →
     Decode (T := listResp) payload = Some resp →
     TotalPages resp ≤ Go.int_max) ∧
  opt_Page (apply_opts [] default_list_options) ≤ 1 ∧
  run.1 = Some (Ok records) ∧
  ∃ earlier last resp,
    wire run.2 = wire Mock.fresh ++ earlier ++ [last] ∧
    page_of <$> (earlier ++ [last])
      = (λ p, Some (Go.Itoa p)) <$> seqZ 1 (Z.of_nat (length earlier) + 1) ∧
    more_pages 1 earlier ∧
    page_answer last.2 = Ok resp ∧
    TotalPages resp ≤ 1 + Z.of_nat (length earlier) ∧
    records = (earlier ++ [last]) ≫= items_of.
Proof.
  intros run records.
  assert (H0 : ∀ s req code text payload resp,
            (Mock.paged 3 s req).1 = DoResp code text payload →
            Decode (T := listResp) payload = Some resp →
            TotalPages resp ≤ Go.int_max)
    by (intros s req code text payload resp; apply paged_total_is_int;
        vm_compute; discriminate).
  assert (H1 : opt_Page (apply_opts [] default_list_options) ≤ 1)
    by (simpl; lia).
  assert (H2 : run.1 = Some (Ok records)) by (vm_compute; reflexivity).
  split_and!; [exact H0|exact H1|exact H2|].
  exact (GetAllRecords_received Mock.marshal Mock.sprint Mock.any_request "x"
           (Mock.paged 3) H0 5 "posts" [] Mock.fresh records H1 H2).
Defined.

Lemma GetAllRecords_failure_witness :
  let run := mock_GetAllRecords Mock.flaky 5 "posts" [] Mock.fresh in
  let e := ErrAPI {| Status := 500; Message := "500 Internal Server Error";
                     Data := None |} in
  (∀ s req code text payload resp,
     (Mock.flaky s req).1 = DoResp code text payload →
     Decode (T := listResp) payload = Some resp →
     TotalPages resp ≤ Go.int_max) ∧
  opt_Page (apply_opts [] default_list_options) ≤ 1 ∧
  run.1 = Some (Err e) ∧
  ∃ new,
    wire run.2 = wire Mock.fresh ++ new ∧
    page_of <$> new
      = (λ p, Some (Go.Itoa p)) <$> seqZ 1 (Z.of_nat (length new)) ∧
    ((more_pages 1 new ∧ e = ErrWrap "failed to create request") ∨
     (∃ earlier last,
        new = earlier ++ [last] ∧ more_pages 1 earlier ∧
        page_answer last.2 = Err e)).
Proof.
  intros run e.
  assert (H1 : opt_Page (apply_opts [] default_list_options) ≤ 1)
    by (simpl; lia).
  assert (H2 : run.1 = Some (Err e)) by (vm_compute; reflexivity).
  split_and!; [exact flaky_total_is_int|exact H1|exact H2|].
  exact (GetAllRecords_failure Mock.marshal Mock.sprint Mock.any_request "x"
           Mock.flaky flaky_total_is_int 5 "posts" [] Mock.fresh e H1 H2).
Defined.

(** The first page arrives, the second fails: two requests, no records. *)
Example second_page_fails :
  let run := mock_GetAllRecords Mock.flaky 5 "posts" [] Mock.fresh in
  page_of <$> wire run.2 = [Some "1"; Some "2"] ∧
  items_of <$> wire run.2 = [[Mock.record "1"]; []].
Proof. vm_compute. done. Qed.

Lemma failing_reader_aborts_witness :
  let fileUploads :=
    {| Uploads := [ {| Field := "avatar"; Files := []; Append := false;
                       Delete := ["old.png"] |};
                    {| Field := "files";
                       Files := [CreateFileDataFromBytes "%PDF" "a.pdf";
                                 CreateFileData ReaderFailing "b.pdf"];
                       Append := true; Delete := [] |} ];
       FormData := None; FQuery := {| Expand := []; Fields := [] |} |} in
  let endpoint := {| path := "/api/collections/documents/records";
                     queries := [] |} in
  Exists (λ upload, Exists failing (Files upload)) (Uploads fileUploads) ∧
  write_uploads [] (Uploads fileUploads)
    = Err (ErrWrap "failed to copy file data") ∧
  ∃ stage,
    mock_doRequest Mock.store Record "POST" endpoint (BodyFiles fileUploads)
      true Mock.fresh = (Err (ErrWrap stage), Mock.fresh) ∧
    (FormData fileUploads = None → stage = "failed to copy file data").
Proof.
  intros fileUploads endpoint.
  assert (H : Exists (λ upload, Exists failing (Files upload))
                (Uploads fileUploads))
    by (right; left; right; left; reflexivity).
  split; [exact H|].
  exact (failing_reader_aborts Mock.marshal Mock.sprint Mock.any_request "x"
           Mock.store (T := Record) fileUploads "POST" endpoint true Mock.fresh
           [] H).
Defined.

Lemma form_of_scalars_witness :
  let data := [("title", AString "Report"); ("pages", AInt 12);
               ("public", ABool true)] in
  let uploads := [ {| Field := "files";
                      Files := [CreateFileDataFromBytes "%PDF" "a.pdf"];
                      Append := false; Delete := [] |} ] in
  let query := {| Expand := []; Fields := [] |} in
  let field := λ kv : string * any,
    FormField kv.1 (default "" (scalar_text Mock.sprint kv.2)) in
  Forall (λ kv, is_Some (scalar_text Mock.sprint kv.2)) data ∧
  Forall (λ upload, Forall readable (Files upload)) uploads ∧
  write_form Mock.marshal Mock.sprint
    {| Uploads := uploads; FormData := Some data; FQuery := query |}
    = Ok ((field <$> data) ++ (uploads ≫= upload_parts)) ∧
  (∀ key text,
     scalar_text Mock.sprint (AString text) = Some text ∧
     for_range (write_data_field Mock.marshal Mock.sprint) []
       [(key, AString text)] = Ok [FormField key text]).
Proof.
  intros data uploads query field.
  assert (H1 : Forall (λ kv, is_Some (scalar_text Mock.sprint kv.2)) data)
    by (repeat constructor; eexists; reflexivity).
  assert (H2 : Forall (λ upload, Forall readable (Files upload)) uploads)
    by (repeat constructor; discriminate).
  refine (conj H1 (conj H2 _)).
  exact (form_of_scalars Mock.marshal Mock.sprint data uploads query H1 H2).
Defined.

(** The same form as it is written: the title is not quoted. *)
Example form_as_written :
  write_form Mock.marshal Mock.sprint
    {| Uploads := []; FormData := Some [("title", AString "Report");
                                        ("pages", AInt 12)];
       FQuery := {| Expand := []; Fields := [] |} |}
  = Ok [FormField "title" "Report"; FormField "pages" "12"].
Proof. vm_compute. done. Qed.

Lemma both_paths_answer_alike_witness :
  let endpoint := {| path := "/api/collections/documents/records/new";
                     queries := [] |} in
  let fileUploads := {| Uploads := []; FormData := None;
                        FQuery := {| Expand := []; Fields := [] |} |} in
  let json := mock_doRequest Mock.store Record "GET" endpoint BodyNil true
                Mock.fresh in
  let multi := mock_doMultipartRequest Mock.store Record "PATCH" endpoint
                 fileUploads true (Mock.with_token "t") in
  let payload := Mock.JSON (Mock.record_json "new") in
  let req := json_request (client Mock.fresh) "GET" endpoint "" in
  let req' := multipart_request "x" (client (Mock.with_token "t")) "PATCH"
                endpoint fileUploads [] in
  (∀ f, BodyNil ≠ BodyFiles f) ∧
  wire json.2 = wire Mock.fresh ++ [(req, DoResp 200 "200 OK" payload)] ∧
  wire multi.2
    = wire (Mock.with_token "t") ++ [(req', DoResp 200 "200 OK" payload)] ∧
  json.1 = multi.1.
Proof.
  intros endpoint fileUploads json multi payload req req'.
  assert (H0 : ∀ f, BodyNil ≠ BodyFiles f) by discriminate.
  assert (H1 : wire json.2
               = wire Mock.fresh ++ [(req, DoResp 200 "200 OK" payload)])
    by reflexivity.
  assert (H2 : wire multi.2
               = wire (Mock.with_token "t")
                 ++ [(req', DoResp 200 "200 OK" payload)])
    by reflexivity.
  refine (conj H0 (conj H1 (conj H2 _))).
  exact (both_paths_answer_alike Mock.marshal Mock.sprint Mock.any_request "x"
           Mock.store "GET" endpoint BodyNil true Mock.fresh "PATCH" endpoint
           fileUploads (Mock.with_token "t") req req' 200 "200 OK" payload
           H0 H1 H2).
Defined.

Lemma NewClient_BaseURL_witness :
  let opts := [WithTimeout 10; WithUserAgent "Example/1.0"] in
  let c := built (NewClient "http://localhost:8090//" opts) in
  Forall provided opts ∧
  token c = "" ∧
  (∀ stem, "http://localhost:8090//" = stem +:+ "/" → BaseURL c = stem) ∧
  ((∀ stem, "http://localhost:8090//" ≠ stem +:+ "/") →
     BaseURL c = "http://localhost:8090//") ∧
  (BaseURL c = "http://localhost:8090//" ∨
   BaseURL c +:+ "/" = "http://localhost:8090//").
Proof.
  intros opts c.
  assert (H : Forall provided opts) by (repeat constructor).
  split; [exact H|].
  exact (NewClient_BaseURL "http://localhost:8090//" opts H).
Defined.

(** [TestNewClient], and a second slash that stays. *)
Example one_slash_less :
  BaseURL (built (NewClient "http://localhost:8090/" [])) = "http://localhost:8090" ∧
  BaseURL (built (NewClient "http://localhost:8090//" [])) = "http://localhost:8090/" ∧
  BaseURL (built (NewClient "http://localhost:8090" [])) = "http://localhost:8090" ∧
  BaseURL (built (NewClient "" [])) = "".
Proof. vm_compute. done. Qed.

Lemma NewClient_options_witness :
  let before := [WithHTTPClient (CallerClient 7); WithUserAgent "first"] in
  let after := [WithTimeout 5; WithHTTPClient (CallerClient 8)] in
  Forall provided after ∧
  Forall (λ o, ∀ ua', o ≠ WithUserAgent ua') after ∧
  userAgent (built (NewClient "http://x" after)) = "pocketbase-go/1.0" ∧
  userAgent (built (NewClient "http://x"
                      (before ++ [WithUserAgent "second"] ++ after)))
    = "second" ∧
  (∀ opts timeout,
     HTTPClient (NewClient "http://x" (opts ++ [WithTimeout timeout]))
       = OwnClient timeout) ∧
  (∀ opts handle,
     HTTPClient (NewClient "http://x" (opts ++ [WithHTTPClient handle]))
       = handle) ∧
  HTTPClient (NewClient "http://x" []) = OwnClient 0.
Proof.
  intros before after.
  assert (H1 : Forall provided after) by (repeat constructor).
  assert (H2 : Forall (λ o, ∀ ua', o ≠ WithUserAgent ua') after).
  { repeat constructor; intros ua' Heq.
    - apply (f_equal (λ o : Option,
               HTTPClient (o (mkClientConfig (mkClient "" "" "")
                                (CallerClient 0))))) in Heq.
      discriminate Heq.
    - apply (f_equal (λ o : Option,
               HTTPClient (o (mkClientConfig (mkClient "" "" "")
                                (CallerClient 0))))) in Heq.
      discriminate Heq. }
  refine (conj H1 (conj H2 _)).
  exact (NewClient_options "http://x" before "second" after H1 H2).
Defined.
